(** * Session controller of the satellite-imagery comparison client

    A shallow embedding of [client/src/App.js] (the variant with the
    computation panel): the React state cells of [App] become one record,
    every event handler becomes a transition on that record, and the
    browser's builtins that the handlers call ([parseFloat],
    [JSON.stringify], [Math.random], [fetch]) are either written out or
    taken as parameters of the development. *)

From Stdlib Require Import ZArith QArith Qround Qabs Bool List String Ascii Lia.
From Stdlib Require Import DecimalString Lqa.
Import ListNotations.

Local Open Scope Z_scope.
Local Open Scope Q_scope.

(** ** JavaScript numbers

    A finite double is a rational, so finite numbers are carried by [Q];
    [NaN] and the two infinities are separate constructors.  Comparisons
    follow IEEE 754: every comparison with [NaN] is false. *)

Inductive number : Type :=
| NaN
| NegInf
| PosInf
| Fin (q : Q).

Definition isNaN (x : number) : bool :=
  match x with NaN => true | _ => false end.

Definition Qltb (x y : Q) : bool := negb (Qle_bool y x).

(** [a < b] *)
Definition num_lt (a b : number) : bool :=
  match a, b with
  | NaN, _ | _, NaN => false
  | NegInf, NegInf => false
  | NegInf, _ => true
  | _, NegInf => false
  | PosInf, _ => false
  | Fin _, PosInf => true
  | Fin x, Fin y => Qltb x y
  end.

(** [a > b] *)
Definition num_gt (a b : number) : bool := num_lt b a.

(** [a <= b] *)
Definition num_le (a b : number) : bool :=
  match a, b with
  | NaN, _ | _, NaN => false
  | NegInf, _ => true
  | _, NegInf => false
  | _, PosInf => true
  | PosInf, _ => false
  | Fin x, Fin y => Qle_bool x y
  end.

(** [a >= b] *)
Definition num_ge (a b : number) : bool := num_le b a.

(** [a === b] on numbers *)
Definition num_eq (a b : number) : bool :=
  match a, b with
  | NegInf, NegInf | PosInf, PosInf => true
  | Fin x, Fin y => Qeq_bool x y
  | _, _ => false
  end.

(** The remainder operator [x % y] of JavaScript on finite numbers: the
    result has the sign of the dividend (truncated division), as [Z.rem]. *)
Definition Qrem (x y : Q) : Q :=
  Z.rem (Qnum x * QDen y) (Qnum y * QDen x) # (Qden x * Qden y).

(** ** Map clicks: folding the longitude into [-180, 180]

    The body of the [click] callback of [MapClickEventHandler] that
    rewrites [clickedLon]. *)
Definition normalizeLongitude (clickedLon : Q) : Q :=
  if Qltb 180 clickedLon then
    let clickedLon := Qrem clickedLon 360 in
    if Qltb 180 clickedLon then clickedLon - 360 else clickedLon
  else if Qltb clickedLon (-180) then
    let clickedLon := Qrem clickedLon 360 in
    if Qltb clickedLon (-180) then clickedLon + 360 else clickedLon
  else clickedLon.

(** ** Strings and number formatting *)

Local Notation "a +++ b" := (String.append a b)
  (at level 60, right associativity, only parsing).

(** [s.includes(sub)] on strings: [sub] occurs somewhere in [s]. *)
Fixpoint includes (s sub : string) : bool :=
  String.prefix sub s ||
  match s with
  | EmptyString => false
  | String _ s' => includes s' sub
  end.

(** [arr.includes(x)] on an array of strings. *)
Definition array_includes (arr : list string) (x : string) : bool :=
  existsb (String.eqb x) arr.

(** [!!s]: a string is truthy when it is not empty. *)
Definition truthy (s : string) : bool := negb (String.eqb s "").

(** Decimal rendering of integers, as [String(n)] gives it. *)
Definition N_toString (n : N) : string := NilZero.string_of_uint (N.to_uint n).
Definition Z_toString (z : Z) : string := NilZero.string_of_int (Z.to_int z).

Definition digit (n : N) : ascii := ascii_of_N (48 + n mod 10).

(** The last [f] decimal digits of [m], most significant first, padded
    with zeros. *)
Fixpoint digits_fixed (f : nat) (m : N) : string :=
  match f with
  | O => EmptyString
  | S k => digits_fixed k (m / 10) +++ String (digit m) EmptyString
  end.

Definition pow10 (f : nat) : N := 10 ^ N.of_nat f.

(** [x.toFixed(f)] for [|x| < 10^21], first step: the sign and the integer
    [n] for which [n / 10^f] is closest to [|x|], the larger one on a tie. *)
Definition toFixed_round (f : nat) (x : Q) : bool * N :=
  (Qltb x 0, Z.to_N (Qfloor (Qabs x * inject_Z (Z.of_N (pow10 f)) + (1 # 2)))).

(** [x.toFixed(f)], second step: the digits of [n] with the decimal point
    [f] places from the right, after a minus sign when [x < 0]. *)
Definition toFixed_render (f : nat) (r : bool * N) : string :=
  let (neg, n) := r in
  (if neg then "-" else "") +++
  N_toString (n / pow10 f) +++
  match f with
  | O => ""
  | S _ => "." +++ digits_fixed f (n mod pow10 f)
  end.

Definition toFixed (f : nat) (x : Q) : string :=
  toFixed_render f (toFixed_round f x).

(** Dropping the zeros at the end of a fraction, as the shortest rendering
    of a number does. *)
Fixpoint strip_zeros (s : string) : string :=
  match s with
  | EmptyString => EmptyString
  | String c s' =>
      match strip_zeros s' with
      | EmptyString => if Ascii.eqb c "0" then EmptyString else String c EmptyString
      | t => String c t
      end
  end.

(** [String(Math.abs(t))] for a text [t] that [toFixed f] produced from the
    rounding [r]: the magnitude [n / 10^f] in its shortest form. *)
Definition abs_toString (f : nat) (r : bool * N) : string :=
  let n := snd r in
  N_toString (n / pow10 f) +++
  match strip_zeros (digits_fixed f (n mod pow10 f)) with
  | EmptyString => ""
  | t => "." +++ t
  end.

(** [t > 0] for such a text [t]. *)
Definition fixed_positive (r : bool * N) : bool :=
  negb (fst r) && negb (N.eqb (snd r) 0).

(** A JavaScript object with string values: the keys in insertion order.
    Assigning to a key that is present replaces its value in place. *)
Definition JSObject : Type := list (string * string).

Fixpoint obj_set (k v : string) (o : JSObject) : JSObject :=
  match o with
  | [] => [(k, v)]
  | (k', v') :: o' =>
      if String.eqb k' k then (k, v) :: o' else (k', v') :: obj_set k v o'
  end.

Definition Object_keys (o : JSObject) : list string := map fst o.

(** [[...new Set(arr)]]: the first occurrence of every element, in order. *)
Fixpoint dedup_from (seen arr : list string) : list string :=
  match arr with
  | [] => []
  | x :: arr' =>
      if array_includes seen x then dedup_from seen arr'
      else x :: dedup_from (x :: seen) arr'
  end.

Definition dedup (arr : list string) : list string := dedup_from [] arr.

(** ** The catalog of computations *)

Definition computationCategories : list (string * list string) :=
  [ ("Disaster Response & Monitoring",
      [ "Differenced Normalized Burn Ratio (dNBR)";
        "Normalized Difference Flood Index (NDFI)";
        "Building Damage Proxy Map (Simulated)";
        "Landslide Susceptibility Index (Simulated)" ]);
    ("Agriculture & Forestry",
      [ "NDVI (Normalized Difference Vegetation Index)";
        "EVI (Enhanced Vegetation Index)";
        "NDMI (Normalized Difference Moisture Index)";
        "Chlorophyll Index (Simulated)" ]);
    ("Water Resources",
      [ "NDWI (Normalized Difference Water Index - Surface Water)";
        "Modified Normalized Difference Water Index (MNDWI)";
        "Turbidity/Sedimentation Index (Simulated)" ]);
    ("Urban & Land Use Change",
      [ "Normalized Difference Built-up Index (NDBI)";
        "Impervious Surface Change Detection (Simulated)";
        "Urban Heat Island (LST Difference - Simulated)";
        "Green Space Monitoring (Simulated)" ]) ]%string.

(** [computationCategories[category]]; an unknown category has no items. *)
Fixpoint lookup_category (cats : list (string * list string)) (category : string)
  : list string :=
  match cats with
  | [] => []
  | (c, items) :: cats' =>
      if String.eqb c category then items else lookup_category cats' category
  end.

(** ** The simulated computation

    One pass of the body of the inner [forEach] of [handleCalculate] for the
    selected item [comp].  [rand] is the sequence of values that
    [Math.random()] returns, [k] the number of values drawn so far. *)
Definition simulate_item (rand : nat -> Q) (comp : string)
    (st : nat * JSObject) : nat * JSObject :=
  let (k, results) := st in
  let r := rand k in
  if includes comp "dNBR" then
    (S k, obj_set "dNBR" (toFixed 4 (r * (3 # 2) - (1 # 2))) results)
  else if includes comp "NDFI" then
    (S k, obj_set "NDFI" (toFixed 4 (r * (8 # 10) + (1 # 10))) results)
  else if includes comp "Building Damage Proxy Map" then
    (S k, obj_set "buildingDamage"
            ("Estimated " +++ Z_toString (Qfloor (r * 20) + 5) +++
             "% structural damage detected.") results)
  else if includes comp "Landslide Susceptibility Index" then
    let susceptibility := r in
    if Qltb susceptibility (3 # 10) then
      (S k, obj_set "landslideSusceptibility" "Low" results)
    else if Qltb susceptibility (7 # 10) then
      (S k, obj_set "landslideSusceptibility" "Medium" results)
    else (S k, obj_set "landslideSusceptibility" "High" results)
  else if includes comp "NDVI" then
    (S k, obj_set "NDVI" (toFixed 4 (r * 2 - 1)) results)
  else if includes comp "EVI" then
    (S k, obj_set "EVI" (toFixed 4 (r * (8 # 10) + (1 # 10))) results)
  else if includes comp "NDMI" then
    (S k, obj_set "NDMI" (toFixed 4 (r * (3 # 2) - (1 # 2))) results)
  else if includes comp "Chlorophyll Index" then
    (S k, obj_set "ChlorophyllIndex" (toFixed 4 (r * (1 # 2) + (2 # 10))) results)
  else if includes comp "NDWI (Normalized Difference Water Index - Surface Water)" then
    (S k, obj_set "NDWI_Surface" (toFixed 4 (r * (3 # 2) - (1 # 2))) results)
  else if includes comp "MNDWI" then
    (S k, obj_set "MNDWI" (toFixed 4 (r * (3 # 2) - (1 # 2))) results)
  else if includes comp "Turbidity/Sedimentation Index" then
    (S k, obj_set "Turbidity" (toFixed 4 (r * (4 # 10) + (5 # 100))) results)
  else if includes comp "NDBI" then
    (S k, obj_set "NDBI" (toFixed 4 (r * (12 # 10) - (6 # 10))) results)
  else if includes comp "Impervious Surface Change Detection" then
    let change := toFixed_round 2 (r * 20 - 10) in
    (S k, obj_set "imperviousChange"
            (abs_toString 2 change +++ "% " +++
             (if fixed_positive change then "Increase" else "Decrease") +++
             " in impervious surface") results)
  else if includes comp "Urban Heat Island" then
    let tempDiff := toFixed 2 (r * 5 + 1) in
    (S k, obj_set "urbanHeatIsland"
            (tempDiff +++ "Â°C hotter in urban core (Simulated)") results)
  else if includes comp "Green Space Monitoring" then
    let greenChange := toFixed_round 2 (r * 15 - 7) in
    (S k, obj_set "greenSpaceChange"
            (abs_toString 2 greenChange +++ "% " +++
             (if fixed_positive greenChange then "Increase" else "Decrease") +++
             " in green space cover") results)
  else (k, results).

(** The callback of the timer of [handleCalculate]: [results] starts as the
    empty object and the source runs the item loop inside a second loop
    over the same selection. *)
Definition simulate (rand : nat -> Q) (selectedComputations : list string)
  : JSObject :=
  snd (fold_left
         (fun st _ =>
            fold_left (fun st comp => simulate_item rand comp st)
                      selectedComputations st)
         selectedComputations (O, [])).
(** An object reference: the address gives the identity ([===] on objects
    compares addresses), [deref] is the object stored there.  The objects
    held by the session are never mutated, so the object travels with its
    address. *)
Record Ref (A : Type) : Type := mkRef { addr : nat; deref : A }.
Arguments mkRef {A} _ _.
Arguments addr {A} _.
Arguments deref {A} _.

Definition same_ref {A : Type} (x y : option (Ref A)) : bool :=
  match x, y with
  | None, None => true
  | Some a, Some b => Nat.eqb (addr a) (addr b)
  | _, _ => false
  end.

(** One property of the [errors] object: absent, [null], or a message. *)
Inductive errval : Type :=
| Absent
| Null
| Msg (m : string).

Record Errors : Type := mkErrors {
  err_latitude : errval;
  err_longitude : errval;
  err_date1 : errval;
  err_date2 : errval
}.

Definition no_errors : Errors := mkErrors Absent Absent Absent Absent.

(** Truthiness of [errors.field]. *)
Definition err_truthy (e : errval) : bool :=
  match e with
  | Msg m => truthy m
  | _ => false
  end.

Definition has_key (e : errval) : nat :=
  match e with Absent => 0%nat | _ => 1%nat end.

(** [Object.keys(errors).length] *)
Definition Object_keys_length (e : Errors) : nat :=
  (has_key (err_latitude e) + has_key (err_longitude e) +
   has_key (err_date1 e) + has_key (err_date2 e))%nat.

Definition LatLng : Type := (number * number)%type.

Local Notation "s |> f" := (f s) (at level 45, left associativity, only parsing).

Section Controller.

(** The bounds of an image as the response carries them: the session only
    stores them, prints them to compare them, and hands them to the map. *)
Context {Bounds : Type}.

Record ImageDescriptor : Type := mkImage {
  imageUrl : string;
  tileUrlTemplate : string;
  bounds : option Bounds;
  dateAcquired : string
}.

(** The state cells of [App], and the next free address for the objects
    that parsing a response allocates. *)
Record State : Type := mkState {
  latitude : string;
  longitude : string;
  date1 : string;
  date2 : string;
  cloudCover : Z;
  errors : Errors;
  isLoading : bool;
  apiError : string;
  image1Info : option (Ref ImageDescriptor);
  image2Info : option (Ref ImageDescriptor);
  isImage1Visible : bool;
  mapCenter : option LatLng;
  markerPosition : option LatLng;
  selectedComputations : list string;
  computationResults : JSObject;
  isCalculating : bool;
  showCalculationResults : bool;
  nextAddr : nat
}.

(** The setter of each state cell: the cell is replaced, every other cell
    keeps its value. *)
Definition setLatitude (v : string) (s : State) : State :=
  mkState v (longitude s) (date1 s) (date2 s) (cloudCover s) (errors s)
    (isLoading s) (apiError s) (image1Info s) (image2Info s) (isImage1Visible
    s) (mapCenter s) (markerPosition s) (selectedComputations s)
    (computationResults s) (isCalculating s) (showCalculationResults s)
    (nextAddr s).

Definition setLongitude (v : string) (s : State) : State :=
  mkState (latitude s) v (date1 s) (date2 s) (cloudCover s) (errors s)
    (isLoading s) (apiError s) (image1Info s) (image2Info s) (isImage1Visible
    s) (mapCenter s) (markerPosition s) (selectedComputations s)
    (computationResults s) (isCalculating s) (showCalculationResults s)
    (nextAddr s).

Definition setDate1 (v : string) (s : State) : State :=
  mkState (latitude s) (longitude s) v (date2 s) (cloudCover s) (errors s)
    (isLoading s) (apiError s) (image1Info s) (image2Info s) (isImage1Visible
    s) (mapCenter s) (markerPosition s) (selectedComputations s)
    (computationResults s) (isCalculating s) (showCalculationResults s)
    (nextAddr s).

Definition setDate2 (v : string) (s : State) : State :=
  mkState (latitude s) (longitude s) (date1 s) v (cloudCover s) (errors s)
    (isLoading s) (apiError s) (image1Info s) (image2Info s) (isImage1Visible
    s) (mapCenter s) (markerPosition s) (selectedComputations s)
    (computationResults s) (isCalculating s) (showCalculationResults s)
    (nextAddr s).

Definition setCloudCover (v : Z) (s : State) : State :=
  mkState (latitude s) (longitude s) (date1 s) (date2 s) v (errors s)
    (isLoading s) (apiError s) (image1Info s) (image2Info s) (isImage1Visible
    s) (mapCenter s) (markerPosition s) (selectedComputations s)
    (computationResults s) (isCalculating s) (showCalculationResults s)
    (nextAddr s).

Definition setErrors (v : Errors) (s : State) : State :=
  mkState (latitude s) (longitude s) (date1 s) (date2 s) (cloudCover s) v
    (isLoading s) (apiError s) (image1Info s) (image2Info s) (isImage1Visible
    s) (mapCenter s) (markerPosition s) (selectedComputations s)
    (computationResults s) (isCalculating s) (showCalculationResults s)
    (nextAddr s).

Definition setIsLoading (v : bool) (s : State) : State :=
  mkState (latitude s) (longitude s) (date1 s) (date2 s) (cloudCover s)
    (errors s) v (apiError s) (image1Info s) (image2Info s) (isImage1Visible
    s) (mapCenter s) (markerPosition s) (selectedComputations s)
    (computationResults s) (isCalculating s) (showCalculationResults s)
    (nextAddr s).

Definition setApiError (v : string) (s : State) : State :=
  mkState (latitude s) (longitude s) (date1 s) (date2 s) (cloudCover s)
    (errors s) (isLoading s) v (image1Info s) (image2Info s) (isImage1Visible
    s) (mapCenter s) (markerPosition s) (selectedComputations s)
    (computationResults s) (isCalculating s) (showCalculationResults s)
    (nextAddr s).

Definition setImage1Info (v : option (Ref ImageDescriptor)) (s : State) : State :=
  mkState (latitude s) (longitude s) (date1 s) (date2 s) (cloudCover s)
    (errors s) (isLoading s) (apiError s) v (image2Info s) (isImage1Visible s)
    (mapCenter s) (markerPosition s) (selectedComputations s)
    (computationResults s) (isCalculating s) (showCalculationResults s)
    (nextAddr s).

Definition setImage2Info (v : option (Ref ImageDescriptor)) (s : State) : State :=
  mkState (latitude s) (longitude s) (date1 s) (date2 s) (cloudCover s)
    (errors s) (isLoading s) (apiError s) (image1Info s) v (isImage1Visible s)
    (mapCenter s) (markerPosition s) (selectedComputations s)
    (computationResults s) (isCalculating s) (showCalculationResults s)
    (nextAddr s).

Definition setIsImage1Visible (v : bool) (s : State) : State :=
  mkState (latitude s) (longitude s) (date1 s) (date2 s) (cloudCover s)
    (errors s) (isLoading s) (apiError s) (image1Info s) (image2Info s) v
    (mapCenter s) (markerPosition s) (selectedComputations s)
    (computationResults s) (isCalculating s) (showCalculationResults s)
    (nextAddr s).

Definition setMapCenter (v : option LatLng) (s : State) : State :=
  mkState (latitude s) (longitude s) (date1 s) (date2 s) (cloudCover s)
    (errors s) (isLoading s) (apiError s) (image1Info s) (image2Info s)
    (isImage1Visible s) v (markerPosition s) (selectedComputations s)
    (computationResults s) (isCalculating s) (showCalculationResults s)
    (nextAddr s).

Definition setMarkerPosition (v : option LatLng) (s : State) : State :=
  mkState (latitude s) (longitude s) (date1 s) (date2 s) (cloudCover s)
    (errors s) (isLoading s) (apiError s) (image1Info s) (image2Info s)
    (isImage1Visible s) (mapCenter s) v (selectedComputations s)
    (computationResults s) (isCalculating s) (showCalculationResults s)
    (nextAddr s).

Definition setSelectedComputations (v : list string) (s : State) : State :=
  mkState (latitude s) (longitude s) (date1 s) (date2 s) (cloudCover s)
    (errors s) (isLoading s) (apiError s) (image1Info s) (image2Info s)
    (isImage1Visible s) (mapCenter s) (markerPosition s) v (computationResults
    s) (isCalculating s) (showCalculationResults s) (nextAddr s).

Definition setComputationResults (v : JSObject) (s : State) : State :=
  mkState (latitude s) (longitude s) (date1 s) (date2 s) (cloudCover s)
    (errors s) (isLoading s) (apiError s) (image1Info s) (image2Info s)
    (isImage1Visible s) (mapCenter s) (markerPosition s) (selectedComputations
    s) v (isCalculating s) (showCalculationResults s) (nextAddr s).

Definition setIsCalculating (v : bool) (s : State) : State :=
  mkState (latitude s) (longitude s) (date1 s) (date2 s) (cloudCover s)
    (errors s) (isLoading s) (apiError s) (image1Info s) (image2Info s)
    (isImage1Visible s) (mapCenter s) (markerPosition s) (selectedComputations
    s) (computationResults s) v (showCalculationResults s) (nextAddr s).

Definition setShowCalculationResults (v : bool) (s : State) : State :=
  mkState (latitude s) (longitude s) (date1 s) (date2 s) (cloudCover s)
    (errors s) (isLoading s) (apiError s) (image1Info s) (image2Info s)
    (isImage1Visible s) (mapCenter s) (markerPosition s) (selectedComputations
    s) (computationResults s) (isCalculating s) v (nextAddr s).

Definition setNextAddr (v : nat) (s : State) : State :=
  mkState (latitude s) (longitude s) (date1 s) (date2 s) (cloudCover s)
    (errors s) (isLoading s) (apiError s) (image1Info s) (image2Info s)
    (isImage1Visible s) (mapCenter s) (markerPosition s) (selectedComputations
    s) (computationResults s) (isCalculating s) (showCalculationResults s) v.

(** ** What the browser provides

    [parseFloat] and, for the bounds that a response carries,
    [JSON.stringify] are builtins of the platform: the handlers are
    parameterised by them.  Every definition below that reads an input
    field goes through [parseFloat]; the only law used is that the empty
    text has no numeric prefix. *)
Class Platform : Type := {
  JSON_stringify : Bounds -> string;
  parseFloat : string -> number;
  parseFloat_empty : parseFloat "" = NaN
}.

Context {P : Platform}.

(** The cells as [useState] initialises them. *)
Definition initialState : State :=
  mkState "35.4393" "-82.2465" "2024-09-16" "2024-10-12" 20 no_errors
    false "" None None true None None [] [] false false 0.

(** *** Form fields *)

(** [setMapCenter(prev => ...)]: the held center is kept when both of its
    components equal the new ones. *)
Definition keepCenter (latNum lonNum : number) (prev : option LatLng)
  : option LatLng :=
  match prev with
  | Some (a, b) =>
      if num_eq a latNum && num_eq b lonNum then prev
      else Some (latNum, lonNum)
  | None => Some (latNum, lonNum)
  end.

(** The effect that depends on [[latitude, longitude]]. *)
Definition coordinateEffect (s : State) : State :=
  let latNum := parseFloat (latitude s) in
  let lonNum := parseFloat (longitude s) in
  if negb (isNaN latNum) && negb (isNaN lonNum) &&
     num_ge latNum (Fin (-90)) && num_le latNum (Fin 90) &&
     num_ge lonNum (Fin (-180)) && num_le lonNum (Fin 180)
  then
    s |> setMarkerPosition (Some (latNum, lonNum))
      |> setMapCenter (keepCenter latNum lonNum (mapCenter s))
  else
    s |> setMarkerPosition None.

Definition clear_latitude (e : Errors) : Errors :=
  mkErrors Null (err_longitude e) (err_date1 e) (err_date2 e).
Definition clear_longitude (e : Errors) : Errors :=
  mkErrors (err_latitude e) Null (err_date1 e) (err_date2 e).
Definition clear_date1 (e : Errors) : Errors :=
  mkErrors (err_latitude e) (err_longitude e) Null (err_date2 e).
Definition clear_date2 (e : Errors) : Errors :=
  mkErrors (err_latitude e) (err_longitude e) (err_date1 e) Null.

Definition handleLatitudeChange (value : string) (s : State) : State :=
  let s' := s |> setLatitude value in
  if err_truthy (err_latitude (errors s))
  then s' |> setErrors (clear_latitude (errors s'))
  else s'.

Definition handleLongitudeChange (value : string) (s : State) : State :=
  let s' := s |> setLongitude value in
  if err_truthy (err_longitude (errors s))
  then s' |> setErrors (clear_longitude (errors s'))
  else s'.

Definition handleDate1Change (value : string) (s : State) : State :=
  let s' := s |> setDate1 value in
  if err_truthy (err_date1 (errors s))
  then s' |> setErrors (clear_date1 (errors s'))
  else s'.

Definition handleDate2Change (value : string) (s : State) : State :=
  let s' := s |> setDate2 value in
  if err_truthy (err_date2 (errors s))
  then s' |> setErrors (clear_date2 (errors s'))
  else s'.

(** *** Map *)

(** The [click] callback of [MapClickEventHandler]. *)
Definition mapClick (clickedLat clickedLon : Q) (s : State) : State :=
  let clickedLon := normalizeLongitude clickedLon in
  s |> setLatitude (toFixed 6 clickedLat)
    |> setLongitude (toFixed 6 clickedLon)
    |> setMarkerPosition (Some (Fin clickedLat, Fin clickedLon))
    |> setMapCenter (Some (Fin clickedLat, Fin clickedLon)).

Inductive MapCommand : Type :=
| InvalidateSize
| FlyTo (center : LatLng) (zoom : Z)
| FitBounds (b : Bounds).

(** What the timer of [MapUpdater] does to the map. *)
Definition MapUpdater (bounds : option Bounds) (center : option LatLng)
  : list MapCommand :=
  InvalidateSize ::
  match center with
  | Some c => [FlyTo c 13%Z]
  | None =>
      match bounds with
      | Some b => [FitBounds b]
      | None => []
      end
  end.

(** [info?.bounds] *)
Definition bounds_of (info : option (Ref ImageDescriptor)) : option Bounds :=
  match info with
  | Some r => bounds (deref r)
  | None => None
  end.

Definition mapUpdaterBounds (s : State) : option Bounds :=
  match bounds_of (image1Info s) with
  | Some b => Some b
  | None =>
      match bounds_of (image2Info s) with
      | Some b => Some b
      | None => None
      end
  end.

Definition mapUpdaterCenter (s : State) : option LatLng := mapCenter s.

(** The commands that the map receives for the state [s]. *)
Definition viewportCommands (s : State) : list MapCommand :=
  MapUpdater (mapUpdaterBounds s) (mapUpdaterCenter s).

(** *** Submitting the form *)

Definition validate_latitude (latitude : string) : errval :=
  let latNum := parseFloat latitude in
  if isNaN latNum || negb (truthy latitude)
  then Msg "Latitude is required and must be a number."
  else if num_lt latNum (Fin (-90)) || num_gt latNum (Fin 90)
  then Msg "Must be between -90 and 90."
  else Absent.

Definition validate_longitude (longitude : string) : errval :=
  let lonNum := parseFloat longitude in
  if isNaN lonNum || negb (truthy longitude)
  then Msg "Longitude is required and must be a number."
  else if num_lt lonNum (Fin (-180)) || num_gt lonNum (Fin 180)
  then Msg "Must be between -180 and 180."
  else Absent.

Definition validate_date1 (date1 : string) : errval :=
  if negb (truthy date1) then Msg "Date 1 is required." else Absent.

Definition validate_date2 (date2 : string) : errval :=
  if negb (truthy date2) then Msg "Date 2 is required." else Absent.

(** The object [newErrors] that [handleSubmit] builds. *)
Definition validate (s : State) : Errors :=
  mkErrors (validate_latitude (latitude s)) (validate_longitude (longitude s))
           (validate_date1 (date1 s)) (validate_date2 (date2 s)).

(** What the continuation of [handleSubmit] keeps from the render in which
    the form was submitted. *)
Record Pending : Type := mkPending {
  apiUrl : string;
  latNum : number;
  lonNum : number
}.

Definition make_apiUrl (s : State) : string :=
  "http://localhost:8080/api/change-detection?lat=" +++ latitude s +++
  "&lon=" +++ longitude s +++ "&date1=" +++ date1 s +++
  "&date2=" +++ date2 s +++ "&cloudCover=" +++ Z_toString (cloudCover s).

(** [handleSubmit] up to the call of [fetch]: the state it leaves and, when
    validation passes, the request it sends. *)
Definition handleSubmit_begin (s : State) : State * option Pending :=
  let newErrors := validate s in
  let s1 := s |> setErrors newErrors in
  if (0 <? Object_keys_length newErrors)%nat then
    (s1 |> setImage1Info None
        |> setImage2Info None
        |> setApiError ""
        |> setMapCenter None
        |> setMarkerPosition None
        |> setShowCalculationResults false,
     None)
  else
    (s1 |> setIsImage1Visible true
        |> setIsLoading true
        |> setApiError ""
        |> setImage1Info None
        |> setImage2Info None
        |> setShowCalculationResults false,
     Some (mkPending (make_apiUrl s) (parseFloat (latitude s))
                     (parseFloat (longitude s)))).

(** How the request ends: [fetch] rejects; the response has a status
    outside 200-299 and the text [errorText]; reading the body rejects; or
    the response has a success status and its body parses to an object
    [data].  [image1] and [image2] are then [data.image1] and
    [data.image2]: a descriptor, or [None] when the body has no such
    property (or has [null] there).  The code does not look at the body
    before it uses it, so a body without them is a success like any
    other. *)
Inductive FetchOutcome : Type :=
| FetchRejected (message : string)
| HttpFailure (status : Z) (errorText : string)
| BodyRejected (message : string)
| HttpSuccess (image1 image2 : option ImageDescriptor).

Definition descriptor_equal (prev new : ImageDescriptor) : bool :=
  String.eqb (imageUrl prev) (imageUrl new) &&
  match option_map JSON_stringify (bounds prev),
        option_map JSON_stringify (bounds new) with
  | Some a, Some b => String.eqb a b
  | None, None => true
  | _, _ => false
  end.

(** The updater passed to [setImage1Info] and [setImage2Info]. *)
Definition reconcile (new : Ref ImageDescriptor)
    (prev : option (Ref ImageDescriptor)) : option (Ref ImageDescriptor) :=
  match prev with
  | Some p => if descriptor_equal (deref p) (deref new) then Some p else Some new
  | None => Some new
  end.

(** The same updater when the property of [data] may be missing.  With
    nothing held it returns [data.image1] as it is, [undefined] included;
    with a descriptor held it reads [data.image1.imageUrl], which throws a
    [TypeError] when [data.image1] is missing: [None].  React runs the
    updater while it renders, so the error unmounts the page. *)
Definition reconcile_data (new prev : option (Ref ImageDescriptor))
  : option (option (Ref ImageDescriptor)) :=
  match prev, new with
  | None, _ => Some new
  | Some _, Some n => Some (reconcile n prev)
  | Some _, None => None
  end.

(** The [try] block after a response with a success status: the
    descriptors that [data] has are new objects; the result is [None] when
    one of the two updaters throws. *)
Definition handleSubmit_success (req : Pending)
    (image1 image2 : option ImageDescriptor) (s : State) : option State :=
  let data_image1 := option_map (mkRef (nextAddr s)) image1 in
  let data_image2 := option_map (mkRef (S (nextAddr s))) image2 in
  match reconcile_data data_image1 (image1Info s),
        reconcile_data data_image2 (image2Info s) with
  | Some info1, Some info2 =>
      Some (s |> setNextAddr (S (S (nextAddr s)))
              |> setImage1Info info1
              |> setImage2Info info2
              |> setMapCenter (keepCenter (latNum req) (lonNum req) (mapCenter s))
              |> setMarkerPosition (Some (latNum req, lonNum req)))
  | _, _ => None
  end.

(** The [catch] block. *)
Definition handleSubmit_catch (message : string) (s : State) : State :=
  s |> setApiError message
    |> setMapCenter None
    |> setMarkerPosition None.

(** The [finally] block. *)
Definition handleSubmit_finally (s : State) : State :=
  s |> setIsLoading false.

(** The [try] block from the moment the request ends: the message of the
    [Error] thrown, or what the block leaves. *)
Definition handleSubmit_try (req : Pending) (r : FetchOutcome) (s : State)
  : string + option State :=
  match r with
  | FetchRejected message => inl message
  | HttpFailure status errorText =>
      inl (if truthy errorText then errorText
           else "HTTP error! Status: " +++ Z_toString status)
  | BodyRejected message => inl message
  | HttpSuccess image1 image2 => inr (handleSubmit_success req image1 image2 s)
  end.

(** [handleSubmit] from the moment the request ends, in the state [s] that
    the session has by then: the state it leaves, or [None] when an updater
    throws. *)
Definition handleSubmit_resume (req : Pending) (r : FetchOutcome) (s : State)
  : option State :=
  match handleSubmit_try req r s with
  | inl message => Some (handleSubmit_finally (handleSubmit_catch message s))
  | inr (Some s') => Some (handleSubmit_finally s')
  | inr None => None
  end.

(** One run of [handleSubmit] during which no other event occurs: the
    response is handled in the state that the first half left.  The
    theorems about all runs are stated on the two halves. *)
Definition handleSubmit (r : FetchOutcome) (s : State) : option State :=
  match handleSubmit_begin s with
  | (s', Some req) => handleSubmit_resume req r s'
  | (s', None) => Some s'
  end.

(** The state that a run leaves, [s] when the page is gone. *)
Definition after (s : State) (run : option State) : State :=
  match run with
  | Some s' => s'
  | None => s
  end.

Definition handleClearAndReset (s : State) : State :=
  s |> setImage1Info None
    |> setImage2Info None
    |> setIsImage1Visible true
    |> setErrors no_errors
    |> setApiError ""
    |> setIsLoading false
    |> setSelectedComputations []
    |> setComputationResults []
    |> setIsCalculating false
    |> setShowCalculationResults false.

(** *** Selection *)

Definition handleCategoryCheckboxChange (category : string) (checked : bool)
    (s : State) : State :=
  let computationsInCategory := lookup_category computationCategories category in
  (if checked then
     s |> setSelectedComputations
            (dedup (selectedComputations s ++ computationsInCategory))
   else
     s |> setSelectedComputations
            (filter (fun comp => negb (array_includes computationsInCategory comp))
                    (selectedComputations s)))
  |> setShowCalculationResults false.

Definition handleComputationChange (value : string) (checked : bool)
    (s : State) : State :=
  s |> setSelectedComputations
         (if checked then selectedComputations s ++ [value]
          else filter (fun comp => negb (String.eqb comp value))
                      (selectedComputations s))
    |> setShowCalculationResults false.

(** The [checked] attribute of the checkbox of a category. *)
Definition categoryChecked (computations : list string) (s : State) : bool :=
  forallb (fun comp => array_includes (selectedComputations s) comp) computations.

(** *** Running the computation *)

(** The [disabled] attribute of the button that calls [handleCalculate]. *)
Definition calculateDisabled (s : State) : bool :=
  Nat.eqb (List.length (selectedComputations s)) 0 || isCalculating s.

(** The delay of the timer, in milliseconds. *)
Definition calculationDelay : Z := 1500.

(** What [setTimeout] receives: the delay, and the callback, which closes
    over the selection of the render in which the button was clicked. *)
Record Timer : Type := mkTimer {
  timer_delay : Z;
  timer_selected : list string
}.

(** The time before which the callback of a timer set at [now] does not
    run. *)
Definition timer_due (now : Z) (t : Timer) : Z := (now + timer_delay t)%Z.

(** [handleCalculate] up to [setTimeout]: the state, and the timer that it
    sets. *)
Definition handleCalculate (s : State) : State * Timer :=
  (s |> setIsCalculating true |> setComputationResults [],
   mkTimer calculationDelay (selectedComputations s)).

(** The timer callback. *)
Definition handleCalculate_timeout (rand : nat -> Q) (selected : list string)
    (s : State) : State :=
  let results := simulate rand selected in
  s |> setComputationResults results
    |> setIsCalculating false
    |> setShowCalculationResults true.

(** A click on the button: nothing happens while it is disabled. *)
Definition clickCalculate (s : State) : option (State * Timer) :=
  if calculateDisabled s then None else Some (handleCalculate s).

(** Every cell outside the four text fields and [errors] is the same in
    [s] and [s']. *)
Definition same_outside_form (s s' : State) : Prop :=
  cloudCover s' = cloudCover s /\ isLoading s' = isLoading s /\
  apiError s' = apiError s /\
  image1Info s' = image1Info s /\ image2Info s' = image2Info s /\
  isImage1Visible s' = isImage1Visible s /\
  mapCenter s' = mapCenter s /\ markerPosition s' = markerPosition s /\
  selectedComputations s' = selectedComputations s /\
  computationResults s' = computationResults s /\
  isCalculating s' = isCalculating s /\
  showCalculationResults s' = showCalculationResults s /\
  nextAddr s' = nextAddr s.

(** Checking every item of a list, one change event per item. *)
Definition select_each (computations : list string) (s : State) : State :=
  fold_left (fun s comp => handleComputationChange comp true s) computations s.

(** *** Lifecycles read off the state *)

Inductive RunnerStatus : Type := RunnerIdle | Running | Done.

Definition runnerStatus (s : State) : RunnerStatus :=
  if isCalculating s then Running
  else if showCalculationResults s then Done
  else RunnerIdle.


(** The request ended with both descriptors in place. *)
Definition Loaded (s : State) : Prop :=
  isLoading s = false /\ image1Info s <> None /\ image2Info s <> None /\
  markerPosition s <> None.


End Controller.

Arguments ImageDescriptor Bounds : clear implicits.
Arguments State Bounds : clear implicits.
Arguments Platform Bounds : clear implicits.
Arguments MapCommand Bounds : clear implicits.
Arguments FetchOutcome Bounds : clear implicits.

(** ** A concrete platform

    Texts are read as exact decimals (sign, digits, fraction, exponent, or
    [Infinity], after leading blanks, the rest of the text ignored), and
    bounds are arrays of arrays of integers, printed as [JSON.stringify]
    prints them. *)

Definition is_digit (c : ascii) : bool :=
  let n := N_of_ascii c in (48 <=? n)%N && (n <=? 57)%N.

Definition is_blank (c : ascii) : bool :=
  let n := N_of_ascii c in
  (n =? 32)%N || ((9 <=? n)%N && (n <=? 13)%N).

Fixpoint skip_blanks (s : string) : string :=
  match s with
  | String c s' => if is_blank c then skip_blanks s' else s
  | EmptyString => s
  end.

(** The digits at the front of [s]: their value after [acc], how many there
    are after [count], and the rest of the text. *)
Fixpoint take_digits (s : string) (acc : N) (count : nat) : N * nat * string :=
  match s with
  | String c s' =>
      if is_digit c
      then take_digits s' (acc * 10 + (N_of_ascii c - 48)) (S count)
      else (acc, count, s)
  | EmptyString => (acc, count, s)
  end.

Definition take_sign (s : string) : bool * string :=
  match s with
  | String "-" s' => (true, s')
  | String "+" s' => (false, s')
  | _ => (false, s)
  end.

Definition parse_exponent (s : string) : Z :=
  match s with
  | String c s' =>
      if Ascii.eqb c "e" || Ascii.eqb c "E" then
        let (neg, s'') := take_sign s' in
        let '(e, count, _) := take_digits s'' 0 0 in
        match count with
        | O => 0%Z
        | S _ => if neg then (- Z.of_N e)%Z else Z.of_N e
        end
      else 0%Z
  | EmptyString => 0%Z
  end.

Definition parseDecimal (s : string) : number :=
  let (neg, s0) := take_sign (skip_blanks s) in
  if String.prefix "Infinity" s0 then (if neg then NegInf else PosInf)
  else
    let '(ip, ic, s1) := take_digits s0 0 0 in
    let '(fp, fc, s2) :=
      match s1 with
      | String "." t => take_digits t 0 0
      | _ => (0%N, O, s1)
      end in
    match (ic + fc)%nat with
    | O => NaN
    | S _ =>
        let e := parse_exponent s2 in
        let m := Z.of_N (ip * pow10 fc + fp) in
        let m := if neg then (- m)%Z else m in
        Fin (if (0 <=? e)%Z
             then (m * 10 ^ e)%Z # Z.to_pos (Z.of_N (pow10 fc))
             else m # Z.to_pos (Z.of_N (pow10 fc) * 10 ^ (- e)))
    end.

Fixpoint join (sep : string) (l : list string) : string :=
  match l with
  | [] => ""
  | [x] => x
  | x :: l' => x +++ sep +++ join sep l'
  end.

Definition stringify_rows (b : list (list Z)) : string :=
  "[" +++ join "," (map (fun row => "[" +++ join "," (map Z_toString row) +++ "]") b)
      +++ "]".

#[export] Instance decimalPlatform : Platform (list (list Z)) := {|
  JSON_stringify := stringify_rows;
  parseFloat := parseDecimal;
  parseFloat_empty := eq_refl
|}.

(** ** The scenario of a first search

    The page is mounted with its default fields, the form is submitted and
    the service answers with two descriptors whose bounds differ. *)

Definition stub_image1 : ImageDescriptor (list (list Z)) :=
  mkImage "http://localhost:8080/images/before.png"
          "http://localhost:8080/tiles/before/{z}/{x}/{y}.png"
          (Some [[35; -83]; [36; -82]]%Z) "2024-09-16".

Definition stub_image2 : ImageDescriptor (list (list Z)) :=
  mkImage "http://localhost:8080/images/after.png"
          "http://localhost:8080/tiles/after/{z}/{x}/{y}.png"
          (Some [[34; -84]; [37; -81]]%Z) "2024-10-12".

Definition stub_response : FetchOutcome (list (list Z)) :=
  HttpSuccess (Some stub_image1) (Some stub_image2).

Definition scenario_mounted : State (list (list Z)) := coordinateEffect initialState.

Definition scenario_loading : State (list (list Z)) := fst (handleSubmit_begin scenario_mounted).

Definition scenario_loaded : State (list (list Z)) :=
  after scenario_mounted (handleSubmit stub_response scenario_mounted).

(** The same form submitted once more, with the same answer. *)
Definition scenario_reloaded : State (list (list Z)) :=
  after scenario_loaded (handleSubmit stub_response scenario_loaded).

Definition is_FitBounds {Bounds : Type} (c : MapCommand Bounds) : bool :=
  match c with FitBounds _ => true | _ => false end.

(** A search somewhere else: latitude 10 is typed in before submitting, a
    selection is made and computed, then the session is reset. *)
Definition elsewhere_loaded : State (list (list Z)) :=
  after scenario_mounted
    (handleSubmit stub_response
       (coordinateEffect (handleLatitudeChange "10" scenario_mounted))).

Definition elsewhere_computed : State (list (list Z)) :=
  let s := handleComputationChange "EVI (Enhanced Vegetation Index)" true
             elsewhere_loaded in
  handleCalculate_timeout (fun _ => 1 # 2)
                          (timer_selected (snd (handleCalculate s)))
                          (fst (handleCalculate s)).

(** The loaded session with the NDVI item checked. *)
Definition ndvi_selected : State (list (list Z)) :=
  handleComputationChange "NDVI (Normalized Difference Vegetation Index)" true
    scenario_loaded.

(** The loaded session after 95 is typed into the latitude field. *)
Definition latitude_95 : State (list (list Z)) := handleLatitudeChange "95" scenario_loaded.

Definition water_items : list string :=
  lookup_category computationCategories "Water Resources".

(** The request that the first search sends. *)
Definition scenario_request : Pending :=
  mkPending
    ("http://localhost:8080/api/change-detection?lat=35.4393&lon=-82.2465" +++
     "&date1=2024-09-16&date2=2024-10-12&cloudCover=20")
    (Fin (354393 # 10000)) (Fin (-822465 # 10000)).

(** A form with nothing right in it. *)
Definition all_invalid : State (list (list Z)) :=
  handleDate2Change "" (handleDate1Change ""
    (handleLongitudeChange "-181" (handleLatitudeChange "north" scenario_loaded))).



(** The loaded session with NDVI checked sets the timer; then the form is
    submitted again, and the timer callback runs while the new request is
    in flight and before its response arrives. *)
Definition overlap_timer : Timer := snd (handleCalculate ndvi_selected).

Definition overlap_loading : State (list (list Z)) :=
  handleCalculate_timeout (fun _ => 1 # 4) (timer_selected overlap_timer)
    (fst (handleSubmit_begin (fst (handleCalculate ndvi_selected)))).

Definition overlap_loaded : State (list (list Z)) :=
  after overlap_loading
    (handleSubmit_resume scenario_request stub_response overlap_loading).

(** ** What the page shows and the events it lets through *)

Definition catalogItems : list string := flat_map snd computationCategories.

(** The keys that one pass of the item loop writes for [comp]. *)
Definition item_keys (comp : string) : list string :=
  Object_keys (snd (simulate_item (fun _ => 0) comp (O, []))).

(** Writing to the key [k] of an object whose keys are [ks]: the key is
    added at the end unless it is there. *)
Definition add_key (ks : list string) (k : string) : list string :=
  if array_includes ks k then ks else ks ++ [k].

Section Page.

Context {Bounds : Type} {P : Platform Bounds}.

(** [image1Info && image2Info]: the Reset button, the toggle button and the
    computation panel are rendered under this condition. *)
Definition imagesShown (s : State Bounds) : bool :=
  match image1Info s, image2Info s with
  | Some _, Some _ => true
  | _, _ => false
  end.

(** [disabled={isLoading}] of the submit button. *)
Definition submitDisabled (s : State Bounds) : bool := isLoading s.

(** [showCalculationResults && Object.keys(computationResults).length > 0]:
    the condition on the list of results inside the computation panel. *)
Definition resultsShown (s : State Bounds) : bool :=
  showCalculationResults s &&
  (0 <? List.length (Object_keys (computationResults s)))%nat.

(** The list of results is rendered: the panel that holds it is, and its
    own condition holds. *)
Definition resultsRendered (s : State Bounds) : bool :=
  imagesShown s && resultsShown s.

(** The click handler of the button that hides or shows image 1. *)
Definition toggleImage1 (s : State Bounds) : State Bounds :=
  s |> setIsImage1Visible (negb (isImage1Visible s)).

(** Every cell outside the two coordinate fields, the map center and the
    marker is the same in [s] and [s']. *)
Definition same_outside_position (s s' : State Bounds) : Prop :=
  date1 s' = date1 s /\ date2 s' = date2 s /\ cloudCover s' = cloudCover s /\
  errors s' = errors s /\ isLoading s' = isLoading s /\
  apiError s' = apiError s /\
  image1Info s' = image1Info s /\ image2Info s' = image2Info s /\
  isImage1Visible s' = isImage1Visible s /\
  selectedComputations s' = selectedComputations s /\
  computationResults s' = computationResults s /\
  isCalculating s' = isCalculating s /\
  showCalculationResults s' = showCalculationResults s /\
  nextAddr s' = nextAddr s.

(** Every cell outside the selection and the flag that shows the results is
    the same in [s] and [s']. *)
Definition same_outside_selection (s s' : State Bounds) : Prop :=
  latitude s' = latitude s /\ longitude s' = longitude s /\
  date1 s' = date1 s /\ date2 s' = date2 s /\ cloudCover s' = cloudCover s /\
  errors s' = errors s /\ isLoading s' = isLoading s /\
  apiError s' = apiError s /\
  image1Info s' = image1Info s /\ image2Info s' = image2Info s /\
  isImage1Visible s' = isImage1Visible s /\
  mapCenter s' = mapCenter s /\ markerPosition s' = markerPosition s /\
  computationResults s' = computationResults s /\
  isCalculating s' = isCalculating s /\
  nextAddr s' = nextAddr s.

(** A number is finite and lies between [lo] and [hi]. *)
Definition finite_within (lo hi : Q) (x : number) : Prop :=
  exists q : Q, x = Fin q /\ lo <= q <= hi.

(** The session as the page runs it: the state cells and the request whose
    response the continuation of [handleSubmit] is waiting for. *)
Record Session : Type := mkSession {
  cells : State Bounds;
  inflight : option Pending
}.

(** One event of the page.  The submit button is disabled while loading;
    the Reset button, the toggle button and the computation panel are
    rendered only while both images are held; a checkbox sends the opposite
    of the state it shows; the response event belongs to the request in
    flight, and the page has no next session when an updater throws.  The
    effect on the coordinates and the timer callback are events of their
    own. *)
Inductive step : Session -> Session -> Prop :=
| step_latitude (value : string) s p :
    step (mkSession s p) (mkSession (handleLatitudeChange value s) p)
| step_longitude (value : string) s p :
    step (mkSession s p) (mkSession (handleLongitudeChange value s) p)
| step_date1 (value : string) s p :
    step (mkSession s p) (mkSession (handleDate1Change value s) p)
| step_date2 (value : string) s p :
    step (mkSession s p) (mkSession (handleDate2Change value s) p)
| step_effect s p :
    step (mkSession s p) (mkSession (coordinateEffect s) p)
| step_click (clickedLat clickedLon : Q) s p :
    step (mkSession s p) (mkSession (mapClick clickedLat clickedLon s) p)
| step_submit_invalid s s' p :
    submitDisabled s = false ->
    handleSubmit_begin s = (s', None) ->
    step (mkSession s p) (mkSession s' p)
| step_submit_valid s s' p req :
    submitDisabled s = false ->
    handleSubmit_begin s = (s', Some req) ->
    step (mkSession s p) (mkSession s' (Some req))
| step_response (r : FetchOutcome Bounds) s s' req :
    handleSubmit_resume req r s = Some s' ->
    step (mkSession s (Some req)) (mkSession s' None)
| step_reset s p :
    imagesShown s = true ->
    step (mkSession s p) (mkSession (handleClearAndReset s) p)
| step_toggle_image s p :
    imagesShown s = true ->
    step (mkSession s p) (mkSession (toggleImage1 s) p)
| step_item (value : string) s p :
    imagesShown s = true ->
    In value catalogItems ->
    step (mkSession s p)
         (mkSession
            (handleComputationChange value
               (negb (array_includes (selectedComputations s) value)) s) p)
| step_category (category : string) (computations : list string) s p :
    imagesShown s = true ->
    In (category, computations) computationCategories ->
    step (mkSession s p)
         (mkSession
            (handleCategoryCheckboxChange category
               (negb (categoryChecked computations s)) s) p)
| step_calculate s s' timer p :
    imagesShown s = true ->
    clickCalculate s = Some (s', timer) ->
    step (mkSession s p) (mkSession s' p)
| step_timer (rand : nat -> Q) (selected : list string) s p :
    step (mkSession s p) (mkSession (handleCalculate_timeout rand selected s) p).

(** The sessions that a run of the page goes through, from the first
    render on. *)
Inductive reachable : Session -> Prop :=
| reachable_initial : reachable (mkSession initialState None)
| reachable_step x y : reachable x -> step x y -> reachable y.

(** The cells that the properties below speak about are the same in [s]
    and [s']. *)
Definition same_tracked (s s' : State Bounds) : Prop :=
  isLoading s' = isLoading s /\
  image1Info s' = image1Info s /\ image2Info s' = image2Info s /\
  nextAddr s' = nextAddr s /\
  mapCenter s' = mapCenter s /\ markerPosition s' = markerPosition s /\
  selectedComputations s' = selectedComputations s.

(** The properties that every event keeps. *)
Definition holds_before (n : nat) (info : option (Ref (ImageDescriptor Bounds)))
  : Prop :=
  forall r, info = Some r -> (addr r < n)%nat.

Definition center_in_range (c : option LatLng) : Prop :=
  forall a b, c = Some (a, b) -> finite_within (-180) 180 b.

Record Invariant (x : Session) : Prop := mkInvariant {
  inv_loading : isLoading (cells x) = true <-> inflight x <> None;
  inv_cleared : inflight x <> None ->
                image1Info (cells x) = None /\ image2Info (cells x) = None;
  inv_addr1 : holds_before (nextAddr (cells x)) (image1Info (cells x));
  inv_addr2 : holds_before (nextAddr (cells x)) (image2Info (cells x));
  inv_distinct : forall a b, image1Info (cells x) = Some a ->
                 image2Info (cells x) = Some b -> addr a <> addr b;
  inv_center : image1Info (cells x) <> None -> mapCenter (cells x) <> None;
  inv_center2 : image2Info (cells x) <> None -> mapCenter (cells x) <> None;
  inv_request : forall req, inflight x = Some req ->
                finite_within (-90) 90 (latNum req) /\
                finite_within (-180) 180 (lonNum req);
  inv_marker : center_in_range (markerPosition (cells x));
  inv_mapCenter : center_in_range (mapCenter (cells x));
  inv_nodup : NoDup (selectedComputations (cells x));
  inv_catalog : incl (selectedComputations (cells x)) catalogItems
}.

End Page.

Arguments Session Bounds : clear implicits.

(** The first search of the scenario as a session, once the response is
    in. *)
Definition scenario_session : Session (list (list Z)) :=
  mkSession scenario_loaded None.

(** The same session with the whole water category and the NDVI item
    checked. *)
Definition scenario_selected : Session (list (list Z)) :=
  mkSession
    (handleComputationChange "NDVI (Normalized Difference Vegetation Index)"
       (negb (array_includes
                (selectedComputations
                   (handleCategoryCheckboxChange "Water Resources" true
                      scenario_loaded))
                "NDVI (Normalized Difference Vegetation Index)"))
       (handleCategoryCheckboxChange "Water Resources"
          (negb (categoryChecked water_items scenario_loaded)) scenario_loaded))
    None.

(** ** Facts about comparisons and the remainder *)

Lemma Qltb_true (x y : Q) : Qltb x y = true <-> x < y.
Proof.
  unfold Qltb. rewrite negb_true_iff.
  split; intro H.
  - apply Qnot_le_lt. intro Hle. apply Qle_bool_iff in Hle. congruence.
  - destruct (Qle_bool y x) eqn:E; [|reflexivity].
    apply Qle_bool_iff in E. exfalso. exact (Qlt_not_le _ _ H E).
Qed.

Lemma Qltb_false (x y : Q) : Qltb x y = false <-> y <= x.
Proof.
  unfold Qltb. rewrite negb_false_iff. apply Qle_bool_iff.
Qed.

Lemma Qrem_360_pos (x : Q) : 0 <= x -> 0 <= Qrem x 360 /\ Qrem x 360 < 360.
Proof.
  destruct x as [n d]. unfold Qrem, Qle, Qlt. cbn [Qnum Qden].
  intro H.
  pose proof (Z.rem_bound_pos (n * 1) (360 * Z.pos d) ltac:(lia) ltac:(lia)) as Hb.
  rewrite Pos2Z.inj_mul. lia.
Qed.

Lemma Qrem_360_neg (x : Q) : x <= 0 -> - (360) < Qrem x 360 /\ Qrem x 360 <= 0.
Proof.
  destruct x as [n d]. unfold Qrem, Qle, Qlt. cbn [Qnum Qden Qopp].
  intro H.
  pose proof (Z.rem_bound_pos (- (n * 1)) (360 * Z.pos d) ltac:(lia) ltac:(lia)) as Hb.
  rewrite Z.rem_opp_l in Hb by lia.
  rewrite Pos2Z.inj_mul. lia.
Qed.

Lemma normalizeLongitude_in_range (x : Q) :
  -180 <= x <= 180 -> normalizeLongitude x = x.
Proof.
  intros [Hlo Hhi]. unfold normalizeLongitude.
  assert (E1 : Qltb 180 x = false) by (apply Qltb_false; exact Hhi).
  assert (E2 : Qltb x (-180) = false) by (apply Qltb_false; exact Hlo).
  rewrite E1, E2. reflexivity.
Qed.

Lemma normalizeLongitude_bounds (x : Q) :
  -180 <= normalizeLongitude x <= 180.
Proof.
  unfold normalizeLongitude.
  destruct (Qltb 180 x) eqn:E1.
  - apply Qltb_true in E1.
    destruct (Qrem_360_pos x) as [H0 H360]; [lra|].
    cbv zeta. destruct (Qltb 180 (Qrem x 360)) eqn:E2.
    + apply Qltb_true in E2. lra.
    + apply Qltb_false in E2. lra.
  - apply Qltb_false in E1.
    destruct (Qltb x (-180)) eqn:E2.
    + apply Qltb_true in E2.
      destruct (Qrem_360_neg x) as [H360 H0]; [lra|].
      cbv zeta. destruct (Qltb (Qrem x 360) (-180)) eqn:E3.
      * apply Qltb_true in E3. lra.
      * apply Qltb_false in E3. lra.
    + apply Qltb_false in E2. lra.
Qed.

(** * Properties *)

Section Properties.

Context {Bounds : Type} {P : Platform Bounds}.

(** ** Longitude folding *)

(** C8.  The longitude folding of the map-click handler returns every
    longitude of [-180, 180] unchanged, sends 200 to -160 and -200 to 160,
    lands in [-180, 180] for every finite input, and is idempotent. *)
Theorem C8_normalizeLongitude :
  (forall x : Q, -180 <= x <= 180 -> normalizeLongitude x = x) /\
  normalizeLongitude 200 = -160 /\
  normalizeLongitude (-200) = 160 /\
  (forall x : Q, -180 <= normalizeLongitude x <= 180) /\
  (forall x : Q, normalizeLongitude (normalizeLongitude x) = normalizeLongitude x).
Proof.
  split; [exact normalizeLongitude_in_range|].
  split; [reflexivity|].
  split; [reflexivity|].
  split; [exact normalizeLongitude_bounds|].
  intro x. apply normalizeLongitude_in_range, normalizeLongitude_bounds.
Qed.

(** ** Editing a field *)

(** C10.  Each of the four edit handlers stores the typed value in its own
    field, replaces its own entry of [errors] by [null] when that entry was
    showing a message and leaves it alone otherwise, and changes no other
    entry of [errors], no other field and no other cell of the session. *)
Theorem C10_edit_frame (value : string) (s : State Bounds) :
  (let s' := handleLatitudeChange value s in
   latitude s' = value /\ longitude s' = longitude s /\
   date1 s' = date1 s /\ date2 s' = date2 s /\
   err_latitude (errors s') =
     (if err_truthy (err_latitude (errors s)) then Null
      else err_latitude (errors s)) /\
   err_longitude (errors s') = err_longitude (errors s) /\
   err_date1 (errors s') = err_date1 (errors s) /\
   err_date2 (errors s') = err_date2 (errors s) /\
   same_outside_form s s') /\
  (let s' := handleLongitudeChange value s in
   latitude s' = latitude s /\ longitude s' = value /\
   date1 s' = date1 s /\ date2 s' = date2 s /\
   err_latitude (errors s') = err_latitude (errors s) /\
   err_longitude (errors s') =
     (if err_truthy (err_longitude (errors s)) then Null
      else err_longitude (errors s)) /\
   err_date1 (errors s') = err_date1 (errors s) /\
   err_date2 (errors s') = err_date2 (errors s) /\
   same_outside_form s s') /\
  (let s' := handleDate1Change value s in
   latitude s' = latitude s /\ longitude s' = longitude s /\
   date1 s' = value /\ date2 s' = date2 s /\
   err_latitude (errors s') = err_latitude (errors s) /\
   err_longitude (errors s') = err_longitude (errors s) /\
   err_date1 (errors s') =
     (if err_truthy (err_date1 (errors s)) then Null
      else err_date1 (errors s)) /\
   err_date2 (errors s') = err_date2 (errors s) /\
   same_outside_form s s') /\
  (let s' := handleDate2Change value s in
   latitude s' = latitude s /\ longitude s' = longitude s /\
   date1 s' = date1 s /\ date2 s' = value /\
   err_latitude (errors s') = err_latitude (errors s) /\
   err_longitude (errors s') = err_longitude (errors s) /\
   err_date1 (errors s') = err_date1 (errors s) /\
   err_date2 (errors s') =
     (if err_truthy (err_date2 (errors s)) then Null
      else err_date2 (errors s))  /\
   same_outside_form s s').
Proof.
  unfold handleLatitudeChange, handleLongitudeChange, handleDate1Change,
    handleDate2Change, same_outside_form.
  repeat split;
    match goal with
    | |- context [err_truthy ?e] => destruct (err_truthy e)
    end; reflexivity.
Qed.

(** ** Reset *)

(** C5 (as the code has it).  From every state, [handleClearAndReset] puts
    the images, the visibility flag, the errors, the API error, the loading
    flag, the selection, the computation results and the two computation
    flags back to their initial values, and leaves the four text fields,
    the cloud cover, the map center and the marker as they are. *)
Theorem C5_reset_cells (s : State Bounds) :
  let fresh : State Bounds := initialState in
  handleClearAndReset s =
  mkState (latitude s) (longitude s) (date1 s) (date2 s) (cloudCover s)
          (errors fresh) (isLoading fresh) (apiError fresh)
          (image1Info fresh) (image2Info fresh) (isImage1Visible fresh)
          (mapCenter s) (markerPosition s)
          (selectedComputations fresh) (computationResults fresh)
          (isCalculating fresh) (showCalculationResults fresh)
          (nextAddr s).
Proof. reflexivity. Qed.

(** ** The category checkbox *)

Lemma array_includes_In (arr : list string) (x : string) :
  array_includes arr x = true <-> In x arr.
Proof.
  unfold array_includes. rewrite existsb_exists. split.
  - intros [y [Hy E]]. apply String.eqb_eq in E. subst. exact Hy.
  - intro H. exists x. split; [exact H | apply String.eqb_refl].
Qed.

Lemma categoryChecked_spec (computations : list string) (s : State Bounds) :
  categoryChecked computations s = true <->
  (forall comp, In comp computations -> In comp (selectedComputations s)).
Proof.
  unfold categoryChecked. rewrite forallb_forall.
  split; intros H comp Hin; apply array_includes_In, H, Hin.
Qed.

Lemma select_each_selection (computations : list string) (s : State Bounds) :
  selectedComputations (select_each computations s) =
  selectedComputations s ++ computations.
Proof.
  unfold select_each. revert s.
  induction computations as [|c l IH]; intro s; simpl.
  - symmetry. apply app_nil_r.
  - rewrite IH. simpl. rewrite <- app_assoc. reflexivity.
Qed.

Lemma dedup_from_In (seen arr : list string) (x : string) :
  In x (dedup_from seen arr) <-> In x arr /\ ~ In x seen.
Proof.
  revert seen. induction arr as [|a l IH]; intro seen; simpl.
  - tauto.
  - destruct (array_includes seen a) eqn:E.
    + apply array_includes_In in E. rewrite IH. split.
      * intros [H1 H2]. auto.
      * intros [[H1 | H1] H2]; [subst; contradiction | auto].
    + assert (Hn : ~ In a seen).
      { intro H. apply array_includes_In in H. congruence. }
      simpl. rewrite IH. simpl. split.
      * intros [H | [H1 H2]]; [subst; auto | split; [auto | tauto]].
      * intros [[H | H] H2]; [auto|].
        destruct (string_dec a x) as [e | n]; [auto|].
        right. split; [exact H|]. intros [H3 | H3]; [exact (n H3) | exact (H2 H3)].
Qed.

Lemma lookup_catalog (category : string) (computations : list string) :
  In (category, computations) computationCategories ->
  lookup_category computationCategories category = computations.
Proof.
  unfold computationCategories.
  intros [H | [H | [H | [H | []]]]]; inversion H; subst; reflexivity.
Qed.

(** C9.  The checked state of a category checkbox is a function of the
    selection alone; it is true exactly when every item of the category is
    selected.  Checking every item of the category, one by one or through
    the category checkbox, makes it true, and unchecking any one item of
    the category makes it false. *)
Theorem C9_category_checkbox (category : string) (computations : list string)
    (s : State Bounds) :
  In (category, computations) computationCategories ->
  (categoryChecked computations s = true <->
   forall comp, In comp computations -> In comp (selectedComputations s)) /\
  (forall s' : State Bounds,
     selectedComputations s' = selectedComputations s ->
     categoryChecked computations s' = categoryChecked computations s) /\
  categoryChecked computations (select_each computations s) = true /\
  categoryChecked computations (handleCategoryCheckboxChange category true s) = true /\
  (forall comp, In comp computations ->
     categoryChecked computations (handleComputationChange comp false s) = false /\
     categoryChecked computations
       (handleComputationChange comp false (select_each computations s)) = false).
Proof.
  intro Hcat.
  assert (Hremove : forall (comp : string) (t : State Bounds),
            In comp computations ->
            categoryChecked computations (handleComputationChange comp false t) = false).
  { intros comp t Hin.
    destruct (categoryChecked computations (handleComputationChange comp false t)) eqn:E;
      [|reflexivity].
    rewrite categoryChecked_spec in E. specialize (E comp Hin).
    simpl in E. apply filter_In in E. destruct E as [_ E].
    rewrite String.eqb_refl in E. discriminate. }
  split; [apply categoryChecked_spec|].
  split; [intros s' E; unfold categoryChecked; rewrite E; reflexivity|].
  split.
  { apply categoryChecked_spec. intros comp Hin.
    rewrite select_each_selection. apply in_or_app. right. exact Hin. }
  split.
  { apply categoryChecked_spec. intros comp Hin.
    unfold handleCategoryCheckboxChange. rewrite (lookup_catalog _ _ Hcat).
    simpl. unfold dedup. apply dedup_from_In. split; [|intros []].
    apply in_or_app. right. exact Hin. }
  intros comp Hin. split; apply Hremove; exact Hin.
Qed.

(** ** The simulated NDVI *)

Lemma string_length_append (a b : string) :
  String.length (a +++ b) = (String.length a + String.length b)%nat.
Proof.
  induction a as [|c a IH]; simpl; [reflexivity | rewrite IH; reflexivity].
Qed.

Lemma digits_fixed_length (f : nat) (m : N) : String.length (digits_fixed f m) = f.
Proof.
  revert m. induction f as [|f IH]; intro m; simpl; [reflexivity|].
  rewrite string_length_append, IH. simpl. lia.
Qed.

Lemma toFixed_round_unit (x : Q) :
  -1 <= x <= 1 -> (snd (toFixed_round 4 x) <= 10000)%N.
Proof.
  intro Hx. unfold toFixed_round. cbn [snd].
  assert (Habs : Qabs x <= 1) by (apply Qabs_Qle_condition; exact Hx).
  change (inject_Z (Z.of_N (pow10 4))) with (10000 # 1).
  assert (Hle : Qabs x * (10000 # 1) + (1 # 2) <= 10000 + (1 # 2)) by lra.
  apply Qfloor_resp_le in Hle.
  change (Qfloor (10000 + (1 # 2))) with 10000%Z in Hle.
  lia.
Qed.

Lemma simulate_ndvi (rand : nat -> Q) :
  simulate rand ["NDVI (Normalized Difference Vegetation Index)"%string] =
  [("NDVI"%string, toFixed 4 (rand O * 2 - 1))].
Proof. reflexivity. Qed.

(** C7.  With the selection holding the NDVI item alone, a click on the
    button starts a run and, for every draw [r] of [Math.random()] with
    [0 <= r < 1], the timer callback publishes a result set whose only key
    is [NDVI]; its value is [2 r - 1], a number of [-1, 1], printed by
    [toFixed(4)]: an optional minus sign, the integer digits, a point and
    exactly four digits, for a rounded magnitude of at most 10000 ten
    thousandths. *)
Theorem C7_ndvi_result (rand : nat -> Q) (s : State Bounds) :
  selectedComputations s = ["NDVI (Normalized Difference Vegetation Index)"%string] ->
  isCalculating s = false ->
  0 <= rand O /\ rand O < 1 ->
  exists (s1 : State Bounds) (timer : Timer),
    clickCalculate s = Some (s1, timer) /\
    let s2 := handleCalculate_timeout rand (timer_selected timer) s1 in
    let x := rand O * 2 - 1 in
    computationResults s2 = [("NDVI"%string, toFixed 4 x)] /\
    Object_keys (computationResults s2) = ["NDVI"%string] /\
    -1 <= x <= 1 /\
    exists (neg : bool) (n : N) (frac : string),
      toFixed_round 4 x = (neg, n) /\ (n <= 10000)%N /\
      toFixed 4 x =
        (if neg then "-" else "") +++ N_toString (n / 10000) +++ "." +++ frac /\
      String.length frac = 4%nat.
Proof.
  intros Hsel Hcalc [H0 H1].
  exists (fst (handleCalculate s)), (snd (handleCalculate s)).
  split.
  { unfold clickCalculate, calculateDisabled. rewrite Hsel, Hcalc. reflexivity. }
  cbn [handleCalculate fst snd timer_selected]. rewrite Hsel.
  assert (Hx : -1 <= rand O * 2 - 1 <= 1) by (split; lra).
  cbv zeta. split; [reflexivity|]. split; [reflexivity|]. split; [exact Hx|].
  pose proof (toFixed_round_unit _ Hx) as Hn.
  destruct (toFixed_round 4 (rand O * 2 - 1)) as [neg n] eqn:E.
  exists neg, n, (digits_fixed 4 (n mod pow10 4)).
  split; [reflexivity|]. split; [exact Hn|].
  split; [|apply digits_fixed_length].
  unfold toFixed. rewrite E. reflexivity.
Qed.

(** ** Validation on submit *)

Lemma truthy_nonempty (t : string) : truthy t = true <-> t <> ""%string.
Proof.
  unfold truthy. rewrite negb_true_iff.
  destruct (String.eqb t "") eqn:E.
  - apply String.eqb_eq in E. split; [discriminate | congruence].
  - apply String.eqb_neq in E. split; [intros _; exact E | reflexivity].
Qed.

Lemma parsed_nonempty (t : string) : isNaN (parseFloat t) = false -> truthy t = true.
Proof.
  intro H. apply truthy_nonempty. intro E. subst t.
  rewrite parseFloat_empty in H. discriminate.
Qed.

Lemma validate_latitude_range (t : string) :
  isNaN (parseFloat t) = false ->
  num_lt (parseFloat t) (Fin (-90)) || num_gt (parseFloat t) (Fin 90) = true ->
  validate_latitude t = Msg "Must be between -90 and 90.".
Proof.
  intros Hn Hr. unfold validate_latitude. cbv zeta.
  rewrite Hn, (parsed_nonempty t Hn), Hr. reflexivity.
Qed.

Lemma validate_longitude_range (t : string) :
  isNaN (parseFloat t) = false ->
  num_lt (parseFloat t) (Fin (-180)) || num_gt (parseFloat t) (Fin 180) = true ->
  validate_longitude t = Msg "Must be between -180 and 180.".
Proof.
  intros Hn Hr. unfold validate_longitude. cbv zeta.
  rewrite Hn, (parsed_nonempty t Hn), Hr. reflexivity.
Qed.

Lemma validate_latitude_missing (t : string) :
  isNaN (parseFloat t) = true \/ t = ""%string ->
  validate_latitude t = Msg "Latitude is required and must be a number.".
Proof.
  unfold validate_latitude. cbv zeta.
  intros [H | H]; [rewrite H; reflexivity|].
  subst t. rewrite orb_true_r. reflexivity.
Qed.

Lemma validate_longitude_missing (t : string) :
  isNaN (parseFloat t) = true \/ t = ""%string ->
  validate_longitude t = Msg "Longitude is required and must be a number.".
Proof.
  unfold validate_longitude. cbv zeta.
  intros [H | H]; [rewrite H; reflexivity|].
  subst t. rewrite orb_true_r. reflexivity.
Qed.

Lemma handleSubmit_begin_invalid (s : State Bounds) :
  (0 < Object_keys_length (validate s))%nat ->
  handleSubmit_begin s =
  (s |> setErrors (validate s) |> setImage1Info None |> setImage2Info None
     |> setApiError "" |> setMapCenter None |> setMarkerPosition None
     |> setShowCalculationResults false, None).
Proof.
  intro H. unfold handleSubmit_begin. cbv zeta.
  apply Nat.ltb_lt in H. rewrite H. reflexivity.
Qed.

Lemma handleSubmit_begin_valid (s s1 : State Bounds) (req : Pending) :
  handleSubmit_begin s = (s1, Some req) ->
  validate s = no_errors /\
  s1 = (s |> setErrors (validate s) |> setIsImage1Visible true
          |> setIsLoading true |> setApiError "" |> setImage1Info None
          |> setImage2Info None |> setShowCalculationResults false) /\
  req = mkPending (make_apiUrl s) (parseFloat (latitude s))
                  (parseFloat (longitude s)).
Proof.
  unfold handleSubmit_begin. cbv zeta.
  destruct (0 <? Object_keys_length (validate s))%nat eqn:E; [discriminate|].
  intro H. inversion H; subst. split; [|split; reflexivity].
  apply Nat.ltb_ge in E. unfold Object_keys_length in E.
  destruct (validate s) as [a b c d]. unfold no_errors.
  destruct a, b, c, d; simpl in E; try lia; reflexivity.
Qed.

(** C3.  On submit, a latitude that parses to a number below -90 or above
    90 gets the range message under the key [latitude], a longitude outside
    [-180, 180] likewise under [longitude], while a text that is empty or
    does not parse gets the other, "required" message; the entry of each of
    the four fields (an empty date gets its own message) is computed from
    that field alone and all four entries are stored; and whenever some entry is set, no request is sent and both
    images, the API error, the map center and the marker are cleared. *)
Theorem C3_validation (s : State Bounds) :
  (isNaN (parseFloat (latitude s)) = false ->
   num_lt (parseFloat (latitude s)) (Fin (-90)) ||
   num_gt (parseFloat (latitude s)) (Fin 90) = true ->
   err_latitude (validate s) = Msg "Must be between -90 and 90." /\
   (0 < Object_keys_length (validate s))%nat) /\
  (isNaN (parseFloat (longitude s)) = false ->
   num_lt (parseFloat (longitude s)) (Fin (-180)) ||
   num_gt (parseFloat (longitude s)) (Fin 180) = true ->
   err_longitude (validate s) = Msg "Must be between -180 and 180." /\
   (0 < Object_keys_length (validate s))%nat) /\
  (isNaN (parseFloat (latitude s)) = true \/ latitude s = ""%string ->
   err_latitude (validate s) = Msg "Latitude is required and must be a number.") /\
  (isNaN (parseFloat (longitude s)) = true \/ longitude s = ""%string ->
   err_longitude (validate s) = Msg "Longitude is required and must be a number.") /\
  (date1 s = ""%string -> err_date1 (validate s) = Msg "Date 1 is required.") /\
  (date2 s = ""%string -> err_date2 (validate s) = Msg "Date 2 is required.") /\
  (err_latitude (validate s) = validate_latitude (latitude s) /\
   err_longitude (validate s) = validate_longitude (longitude s) /\
   err_date1 (validate s) = validate_date1 (date1 s) /\
   err_date2 (validate s) = validate_date2 (date2 s) /\
   errors (fst (handleSubmit_begin s)) = validate s) /\
  ((0 < Object_keys_length (validate s))%nat ->
   let s' := fst (handleSubmit_begin s) in
   snd (handleSubmit_begin s) = None /\
   image1Info s' = None /\ image2Info s' = None /\ apiError s' = ""%string /\
   mapCenter s' = None /\ markerPosition s' = None).
Proof.
  split.
  { intros Hn Hr. pose proof (validate_latitude_range _ Hn Hr) as E.
    split; [exact E|]. unfold Object_keys_length. cbn [validate err_latitude].
    rewrite E. simpl. lia. }
  split.
  { intros Hn Hr. pose proof (validate_longitude_range _ Hn Hr) as E.
    split; [exact E|]. unfold Object_keys_length.
    cbn [validate err_latitude err_longitude].
    rewrite E. simpl. lia. }
  split; [apply validate_latitude_missing|].
  split; [apply validate_longitude_missing|].
  split; [intro E; cbn [validate err_date1]; rewrite E; reflexivity|].
  split; [intro E; cbn [validate err_date2]; rewrite E; reflexivity|].
  split.
  { repeat split. unfold handleSubmit_begin. cbv zeta.
    destruct (0 <? Object_keys_length (validate s))%nat; reflexivity. }
  intro H. rewrite (handleSubmit_begin_invalid s H). repeat split.
Qed.

(** ** The end of a request *)

Lemma resume_success_cleared (req : Pending)
    (image1 image2 : option (ImageDescriptor Bounds)) (s : State Bounds) :
  image1Info s = None -> image2Info s = None ->
  handleSubmit_resume req (HttpSuccess image1 image2) s =
  Some (s |> setNextAddr (S (S (nextAddr s)))
          |> setImage1Info (option_map (mkRef (nextAddr s)) image1)
          |> setImage2Info (option_map (mkRef (S (nextAddr s))) image2)
          |> setMapCenter (keepCenter (latNum req) (lonNum req) (mapCenter s))
          |> setMarkerPosition (Some (latNum req, lonNum req))
          |> handleSubmit_finally).
Proof.
  intros H1 H2.
  unfold handleSubmit_resume, handleSubmit_try, handleSubmit_success,
    reconcile_data.
  rewrite H1, H2. reflexivity.
Qed.



(** ** Keeping the held descriptor *)

Lemma descriptor_equal_same (prev new : ImageDescriptor Bounds) :
  imageUrl prev = imageUrl new -> bounds prev = bounds new ->
  descriptor_equal prev new = true.
Proof.
  intros Hu Hb. unfold descriptor_equal. rewrite Hu, Hb, String.eqb_refl.
  destruct (bounds new); simpl; [apply String.eqb_refl | reflexivity].
Qed.

(** C1 (as the code has it).  The updater that stores a descriptor of a
    response returns the held object itself whenever one is held at that
    moment with the same image URL and the same bounds as the incoming
    one.  A submit that passes validation clears both held descriptors
    before it sends the request, so when its own response arrives nothing
    is held: the session then holds the two objects parsed from that
    response, at addresses that no object held before the submit has. *)
Theorem C1_reconcile_after_clear :
  (forall prev new : Ref (ImageDescriptor Bounds),
     imageUrl (deref prev) = imageUrl (deref new) ->
     bounds (deref prev) = bounds (deref new) ->
     reconcile new (Some prev) = Some prev) /\
  (forall new : Ref (ImageDescriptor Bounds), reconcile new None = Some new) /\
  (forall (s s1 : State Bounds) (req : Pending) (image1 image2 : ImageDescriptor Bounds),
     handleSubmit_begin s = (s1, Some req) ->
     image1Info s1 = None /\ image2Info s1 = None /\
     exists s2 : State Bounds,
       handleSubmit_resume req (HttpSuccess (Some image1) (Some image2)) s1 =
         Some s2 /\
       image1Info s2 = Some (mkRef (nextAddr s) image1) /\
       image2Info s2 = Some (mkRef (S (nextAddr s)) image2) /\
       (forall held : Ref (ImageDescriptor Bounds),
          (addr held < nextAddr s)%nat ->
          same_ref (Some held) (image1Info s2) = false /\
          same_ref (Some held) (image2Info s2) = false)).
Proof.
  split; [|split; [reflexivity|]].
  - intros prev new Hu Hb. unfold reconcile.
    rewrite (descriptor_equal_same _ _ Hu Hb). reflexivity.
  - intros s s1 req image1 image2 Hb.
    destruct (handleSubmit_begin_valid _ _ _ Hb) as [_ [E1 _]]. subst s1.
    split; [reflexivity|]. split; [reflexivity|].
    eexists. split; [reflexivity|].
    split; [reflexivity|]. split; [reflexivity|].
    intros held Hlt. simpl. split; apply Nat.eqb_neq; lia.
Qed.

(** ** The viewport after a successful search *)

Lemma num_eq_refl (x : number) : isNaN x = false -> num_eq x x = true.
Proof.
  destruct x; simpl; intro H; try reflexivity; try discriminate.
  apply Qeq_bool_iff. reflexivity.
Qed.

Lemma validated_numbers (s : State Bounds) :
  validate s = no_errors ->
  isNaN (parseFloat (latitude s)) = false /\
  isNaN (parseFloat (longitude s)) = false.
Proof.
  unfold validate, no_errors, validate_latitude, validate_longitude.
  cbv zeta. intro H. inversion H as [[H1 H2 H3 H4]]. clear H3 H4.
  destruct (isNaN (parseFloat (latitude s))); [discriminate|].
  destruct (isNaN (parseFloat (longitude s))); [|split; reflexivity].
  simpl in H2. discriminate.
Qed.

Lemma keepCenter_spec (latNum lonNum : number) (prev : option LatLng) :
  isNaN latNum = false -> isNaN lonNum = false ->
  exists c : LatLng,
    keepCenter latNum lonNum prev = Some c /\
    num_eq (fst c) latNum = true /\ num_eq (snd c) lonNum = true.
Proof.
  intros Ha Hb. unfold keepCenter.
  destruct prev as [[a b]|].
  - destruct (num_eq a latNum && num_eq b lonNum) eqn:E.
    + apply andb_true_iff in E. exists (a, b). split; [reflexivity | exact E].
    + exists (latNum, lonNum). split; [reflexivity|].
      split; apply num_eq_refl; assumption.
  - exists (latNum, lonNum). split; [reflexivity|].
    split; apply num_eq_refl; assumption.
Qed.

(** C2 (as the code has it).  After a successful response, the bounds
    handed to the map updater are those of image1 when it has bounds and
    those of image2 otherwise; the success path also sets the map center to
    the coordinate of the request, and the map updater gives the center
    precedence: the commands are [invalidateSize] and [flyTo] that center
    at zoom 13.  [fitBounds] is issued only while no center is set. *)
Theorem C2_viewport_after_success :
  (forall (s s1 : State Bounds) (req : Pending) (image1 image2 : ImageDescriptor Bounds),
     handleSubmit_begin s = (s1, Some req) ->
     exists s2 : State Bounds,
       handleSubmit_resume req (HttpSuccess (Some image1) (Some image2)) s1 =
         Some s2 /\
       mapUpdaterBounds s2 =
         match bounds image1 with
         | Some b => Some b
         | None => bounds image2
         end /\
       exists c : LatLng,
         mapCenter s2 = Some c /\
         num_eq (fst c) (latNum req) = true /\
         num_eq (snd c) (lonNum req) = true /\
         viewportCommands s2 = [InvalidateSize; FlyTo c 13%Z]) /\
  (forall (b : Bounds) (c : LatLng),
     MapUpdater (Some b) (Some c) = [InvalidateSize; FlyTo c 13%Z]) /\
  (forall b : Bounds, MapUpdater (Some b) None = [InvalidateSize; FitBounds b]).
Proof.
  split; [|split; reflexivity].
  intros s s1 req image1 image2 Hb.
  destruct (handleSubmit_begin_valid _ _ _ Hb) as [Hv [E1 E2]].
  destruct (validated_numbers s Hv) as [Hlat Hlon].
  subst s1 req. eexists. split; [reflexivity|]. split.
  - unfold mapUpdaterBounds. simpl.
    destruct (bounds image1); [reflexivity|].
    destruct (bounds image2); reflexivity.
  - destruct (keepCenter_spec _ _ (mapCenter s) Hlat Hlon) as [c [Hc [Ha Hb']]].
    exists c. unfold viewportCommands, mapUpdaterCenter. simpl.
    rewrite Hc. repeat split; assumption.
Qed.

End Properties.

(** * The theorems at concrete sessions *)

Ltac loaded_by_computation :=
  unfold Loaded; vm_compute; repeat split; discriminate.

Lemma C8_normalizeLongitude_witness :
  -180 <= 100 <= 180 /\ normalizeLongitude 100 = 100.
Proof.
  assert (H : -180 <= 100 <= 180) by (split; unfold Qle; simpl; lia).
  split; [exact H|].
  exact (proj1 C8_normalizeLongitude 100 H).
Defined.


Lemma C9_category_checkbox_witness :
  In ("Water Resources"%string, water_items) computationCategories /\
  categoryChecked water_items (select_each water_items scenario_loaded) = true /\
  categoryChecked water_items
    (handleComputationChange "Modified Normalized Difference Water Index (MNDWI)"
       false (select_each water_items scenario_loaded)) = false.
Proof.
  assert (H : In ("Water Resources"%string, water_items) computationCategories).
  { right. right. left. reflexivity. }
  assert (Hin : In "Modified Normalized Difference Water Index (MNDWI)"%string
                   water_items).
  { right. left. reflexivity. }
  split; [exact H|].
  pose proof (C9_category_checkbox (Bounds := list (list Z)) _ _ scenario_loaded H)
    as [_ [_ [Hall [_ Hdrop]]]].
  split; [exact Hall | exact (proj2 (Hdrop _ Hin))].
Defined.

Lemma C7_ndvi_result_witness :
  selectedComputations ndvi_selected =
    ["NDVI (Normalized Difference Vegetation Index)"%string] /\
  isCalculating ndvi_selected = false /\
  (0 <= 1 # 4 /\ 1 # 4 < 1) /\
  exists (s1 : State (list (list Z))) (timer : Timer),
    clickCalculate ndvi_selected = Some (s1, timer) /\
    computationResults
      (handleCalculate_timeout (fun _ => 1 # 4) (timer_selected timer) s1) =
      [("NDVI"%string, "-0.5000"%string)].
Proof.
  assert (H1 : selectedComputations ndvi_selected =
               ["NDVI (Normalized Difference Vegetation Index)"%string])
    by reflexivity.
  assert (H2 : isCalculating ndvi_selected = false) by reflexivity.
  assert (H3 : 0 <= 1 # 4 /\ 1 # 4 < 1).
  { split; [unfold Qle | unfold Qlt]; simpl; lia. }
  split; [exact H1|]. split; [exact H2|]. split; [exact H3|].
  destruct (C7_ndvi_result (Bounds := list (list Z)) (fun _ => 1 # 4)
              ndvi_selected H1 H2 H3) as [s1 [timer [Hc [Hr _]]]].
  exists s1, timer. split; [exact Hc | exact Hr].
Defined.

Lemma C3_validation_witness :
  isNaN (parseFloat (latitude latitude_95)) = false /\
  num_lt (parseFloat (latitude latitude_95)) (Fin (-90)) ||
  num_gt (parseFloat (latitude latitude_95)) (Fin 90) = true /\
  err_latitude (validate latitude_95) = Msg "Must be between -90 and 90." /\
  err_longitude (validate latitude_95) = Absent /\
  snd (handleSubmit_begin latitude_95) = None /\
  image1Info (fst (handleSubmit_begin latitude_95)) = None /\
  markerPosition (fst (handleSubmit_begin latitude_95)) = None /\
  validate all_invalid =
    mkErrors (Msg "Latitude is required and must be a number.")
             (Msg "Must be between -180 and 180.")
             (Msg "Date 1 is required.") (Msg "Date 2 is required.").
Proof.
  assert (Hn : isNaN (parseFloat (latitude latitude_95)) = false) by reflexivity.
  assert (Hr : num_lt (parseFloat (latitude latitude_95)) (Fin (-90)) ||
               num_gt (parseFloat (latitude latitude_95)) (Fin 90) = true)
    by reflexivity.
  split; [exact Hn|]. split; [exact Hr|].
  pose proof (C3_validation (P := decimalPlatform) latitude_95)
    as [Hlat [_ [_ [_ [_ [_ [_ Hclear]]]]]]].
  destruct (Hlat Hn Hr) as [Hmsg Hpos].
  destruct (Hclear Hpos) as [Hreq [Hi1 [_ [_ [_ Hmark]]]]].
  split; [exact Hmsg|]. split; [reflexivity|].
  split; [exact Hreq|]. split; [exact Hi1|]. split; [exact Hmark|].
  vm_compute. reflexivity.
Defined.

Lemma scenario_loaded_run :
  handleSubmit_resume scenario_request
    (HttpSuccess (Some stub_image1) (Some stub_image2)) scenario_loading =
  Some scenario_loaded.
Proof. vm_compute. reflexivity. Qed.

Lemma scenario_reloaded_run :
  handleSubmit_resume scenario_request
    (HttpSuccess (Some stub_image1) (Some stub_image2))
    (fst (handleSubmit_begin scenario_loaded)) =
  Some scenario_reloaded.
Proof. vm_compute. reflexivity. Qed.


Lemma C1_reconcile_after_clear_witness :
  handleSubmit_begin scenario_loaded =
    (fst (handleSubmit_begin scenario_loaded), Some scenario_request) /\
  image1Info (fst (handleSubmit_begin scenario_loaded)) = None /\
  image1Info scenario_reloaded = Some (mkRef 2 stub_image1) /\
  reconcile (mkRef 2 stub_image1) (image1Info scenario_loaded) =
    image1Info scenario_loaded.
Proof.
  assert (H : handleSubmit_begin scenario_loaded =
              (fst (handleSubmit_begin scenario_loaded), Some scenario_request))
    by reflexivity.
  split; [exact H|].
  pose proof (C1_reconcile_after_clear (P := decimalPlatform)) as [Hkeep [_ Hnew]].
  destruct (Hnew _ _ _ stub_image1 stub_image2 H) as [Hc [_ [s2 [Hr [Hn _]]]]].
  rewrite scenario_reloaded_run in Hr. inversion Hr; subst s2.
  split; [exact Hc|]. split; [exact Hn|].
  exact (Hkeep (mkRef 0 stub_image1) (mkRef 2 stub_image1) eq_refl eq_refl).
Defined.

Lemma C2_viewport_after_success_witness :
  handleSubmit_begin scenario_mounted = (scenario_loading, Some scenario_request) /\
  mapUpdaterBounds scenario_loaded = bounds stub_image1 /\
  exists c : LatLng,
    mapCenter scenario_loaded = Some c /\
    viewportCommands scenario_loaded = [InvalidateSize; FlyTo c 13%Z].
Proof.
  assert (H : handleSubmit_begin scenario_mounted =
              (scenario_loading, Some scenario_request)) by reflexivity.
  split; [exact H|].
  destruct (proj1 (C2_viewport_after_success (P := decimalPlatform))
              _ _ _ stub_image1 stub_image2 H)
    as [s2 [Hr [Hb [c [Hc [_ [_ Hv]]]]]]].
  rewrite scenario_loaded_run in Hr. inversion Hr; subst s2.
  split; [exact Hb|]. exists c. split; [exact Hc | exact Hv].
Defined.

(** * Where the code departs from the specification *)

(** The form of a loaded session is submitted again and the service gives
    the same answer: the descriptors are equal in URL and bounds to the
    held ones, and the session ends up holding other objects. *)
Lemma C1_counterexample :
  Loaded scenario_loaded /\
  handleSubmit stub_response scenario_loaded = Some scenario_reloaded /\
  option_map deref (image1Info scenario_reloaded) =
    option_map deref (image1Info scenario_loaded) /\
  option_map deref (image2Info scenario_reloaded) =
    option_map deref (image2Info scenario_loaded) /\
  same_ref (image1Info scenario_loaded) (image1Info scenario_reloaded) = false /\
  same_ref (image2Info scenario_loaded) (image2Info scenario_reloaded) = false /\
  image1Info scenario_reloaded <> image1Info scenario_loaded.
Proof.
  split; [loaded_by_computation|].
  repeat split; try (vm_compute; reflexivity).
  vm_compute. discriminate.
Qed.

(** The first search of the scenario: the result carries bounds, and the
    map is never told to fit them; it flies to the center instead. *)
Lemma C2_counterexample :
  Loaded scenario_loaded /\
  mapUpdaterBounds scenario_loaded = bounds stub_image1 /\
  viewportCommands scenario_loaded =
    [InvalidateSize; FlyTo (Fin (354393 # 10000), Fin (-822465 # 10000)) 13%Z] /\
  List.length
    (filter is_FitBounds
       (viewportCommands scenario_mounted ++ viewportCommands scenario_loading ++
        viewportCommands scenario_loaded)) = 0%nat.
Proof.
  split; [loaded_by_computation|].
  repeat split; vm_compute; reflexivity.
Qed.

(** A reset after a search at latitude 10: the field, the map center and
    the marker stay where the search put them, so the session is neither
    the fresh one nor the mounted one. *)
Lemma C5_counterexample :
  Loaded elsewhere_computed /\
  computationResults elsewhere_computed <> [] /\
  latitude (handleClearAndReset elsewhere_computed) = "10"%string /\
  markerPosition (handleClearAndReset elsewhere_computed) =
    Some (Fin (10 # 1), Fin (-822465 # 10000)) /\
  mapCenter (handleClearAndReset elsewhere_computed) =
    Some (Fin (10 # 1), Fin (-822465 # 10000)) /\
  markerPosition (initialState : State (list (list Z))) = None /\
  handleClearAndReset elsewhere_computed <> initialState /\
  handleClearAndReset elsewhere_computed <> scenario_mounted.
Proof.
  split; [loaded_by_computation|].
  split; [vm_compute; discriminate|].
  split; [vm_compute; reflexivity|].
  split; [vm_compute; reflexivity|].
  split; [vm_compute; reflexivity|].
  split; [reflexivity|].
  split; intro H; apply (f_equal latitude) in H; vm_compute in H; discriminate H.
Qed.

(** * Further properties of the handlers *)

Section HandlerProperties.

Context {Bounds : Type} {P : Platform Bounds}.

(** ** Map clicks *)

Lemma Qrem_360_congruent (x : Q) :
  exists k : Z, Qrem x 360 == x - 360 * inject_Z k.
Proof.
  destruct x as [n d].
  exists (Z.quot (n * 1) (360 * Z.pos d)).
  pose proof (Z.quot_rem' (n * 1) (360 * Z.pos d)) as E.
  unfold Qrem, Qeq, Qminus, Qplus, Qopp, Qmult, inject_Z. cbn [Qnum Qden].
  rewrite !Pos2Z.inj_mul.
  set (q := Z.quot (n * 1) (360 * Z.pos d)) in *.
  set (r := Z.rem (n * 1) (360 * Z.pos d)) in *.
  nia.
Qed.

Lemma turn_back (x z : Q) : x - 360 * z - 360 == x - 360 * (z + 1).
Proof. lra. Qed.

Lemma turn_forward (x z : Q) : x - 360 * z + 360 == x - 360 * (z + -1).
Proof. lra. Qed.

Lemma turn_none (x : Q) : x == x - 360 * 0.
Proof. lra. Qed.

(** X1.  Folding a clicked longitude moves it by a whole number of turns:
    the result differs from the input by an integer multiple of 360. *)
Theorem normalizeLongitude_congruent (x : Q) :
  exists k : Z, normalizeLongitude x == x - 360 * inject_Z k.
Proof.
  unfold normalizeLongitude.
  destruct (Qrem_360_congruent x) as [k Hk].
  destruct (Qltb 180 x).
  - cbv zeta. destruct (Qltb 180 (Qrem x 360)).
    + exists (k + 1)%Z. rewrite Hk, inject_Z_plus.
      apply turn_back.
    + exists k. exact Hk.
  - destruct (Qltb x (-180)).
    + cbv zeta. destruct (Qltb (Qrem x 360) (-180)).
      * exists (k - 1)%Z. rewrite Hk. unfold Z.sub.
        rewrite inject_Z_plus. apply turn_forward.
      * exists k. exact Hk.
    + exists 0%Z. apply turn_none.
Qed.

Lemma toFixed_fraction_digits (f : nat) (x : Q) :
  exists sign int frac : string,
    toFixed (S f) x = sign +++ int +++ "." +++ frac /\
    String.length frac = S f /\
    (sign = ""%string \/ sign = "-"%string).
Proof.
  unfold toFixed. destruct (toFixed_round (S f) x) as [neg n].
  exists (if neg then "-" else "")%string, (N_toString (n / pow10 (S f))),
         (digits_fixed (S f) (n mod pow10 (S f))).
  split; [reflexivity|]. split; [apply digits_fixed_length|].
  destruct neg; auto.
Qed.

Lemma pow10_pos (f : nat) : 0 < inject_Z (Z.of_N (pow10 f)).
Proof.
  unfold pow10. change 0 with (inject_Z 0). rewrite <- Zlt_Qlt.
  assert (H : (0 < 10 ^ N.of_nat f)%N).
  { apply N.neq_0_lt_0. apply N.pow_nonzero. discriminate. }
  lia.
Qed.

Lemma toFixed_round_nearest (f : nat) (x : Q) :
  let n := inject_Z (Z.of_N (snd (toFixed_round f x))) in
  let scaled := Qabs x * inject_Z (Z.of_N (pow10 f)) in
  n - (1 # 2) <= scaled /\ scaled < n + (1 # 2).
Proof.
  cbv zeta. unfold toFixed_round. cbn [snd].
  set (y := Qabs x * inject_Z (Z.of_N (pow10 f))).
  assert (Hy : 0 <= y).
  { unfold y. apply Qmult_le_0_compat; [apply Qabs_nonneg|].
    apply Qlt_le_weak, pow10_pos. }
  assert (Hfloor : (0 <= Qfloor (y + (1 # 2)))%Z).
  { change 0%Z with (Qfloor 0). apply Qfloor_resp_le. lra. }
  rewrite Z2N.id by exact Hfloor.
  pose proof (Qfloor_le (y + (1 # 2))) as H1.
  pose proof (Qlt_floor (y + (1 # 2))) as H2.
  rewrite inject_Z_plus in H2. change (inject_Z 1) with 1 in H2.
  split; lra.
Qed.

(** X2.  A click on the map puts the marker and the map center at the
    clicked latitude and the folded longitude, which lies in [-180, 180];
    the two coordinate fields get the texts of [toFixed(6)], each with six
    digits after the point and a value within half a millionth of the
    coordinate; no other cell changes, the field errors included. *)
Theorem mapClick_effect (clickedLat clickedLon : Q) (s : State Bounds) :
  let s' := mapClick clickedLat clickedLon s in
  let lon := normalizeLongitude clickedLon in
  markerPosition s' = Some (Fin clickedLat, Fin lon) /\
  mapCenter s' = Some (Fin clickedLat, Fin lon) /\
  -180 <= lon <= 180 /\
  latitude s' = toFixed 6 clickedLat /\ longitude s' = toFixed 6 lon /\
  (exists sign int frac : string,
     latitude s' = sign +++ int +++ "." +++ frac /\ String.length frac = 6%nat) /\
  (exists sign int frac : string,
     longitude s' = sign +++ int +++ "." +++ frac /\ String.length frac = 6%nat) /\
  (let n := inject_Z (Z.of_N (snd (toFixed_round 6 clickedLat))) in
   n - (1 # 2) <= Qabs clickedLat * 1000000 /\
   Qabs clickedLat * 1000000 < n + (1 # 2)) /\
  same_outside_position s s'.
Proof.
  cbv zeta. split; [reflexivity|]. split; [reflexivity|].
  split; [apply normalizeLongitude_bounds|].
  split; [reflexivity|]. split; [reflexivity|].
  split.
  { destruct (toFixed_fraction_digits 5 clickedLat) as [a [b [c [E [L _]]]]].
    exists a, b, c. split; assumption. }
  split.
  { destruct (toFixed_fraction_digits 5 (normalizeLongitude clickedLon))
      as [a [b [c [E [L _]]]]].
    exists a, b, c. split; assumption. }
  split; [exact (toFixed_round_nearest 6 clickedLat)|].
  unfold same_outside_position. repeat split.
Qed.

(** ** The effect on the coordinates *)

Lemma within_spec (lo hi : Q) (x : number) :
  negb (isNaN x) && num_ge x (Fin lo) && num_le x (Fin hi) = true <->
  finite_within lo hi x.
Proof.
  unfold finite_within. destruct x as [| | |q]; simpl.
  - split; [discriminate | intros [q [E _]]; discriminate].
  - split; [discriminate | intros [q [E _]]; discriminate].
  - split; [discriminate | intros [q [E _]]; discriminate].
  - rewrite andb_true_iff, !Qle_bool_iff. split.
    + intros [H1 H2]. exists q. split; [reflexivity | split; assumption].
    + intros [q' [E [H1 H2]]]. inversion E; subst. split; assumption.
Qed.

Lemma outside_spec (lo hi : Q) (x : number) :
  isNaN x = false ->
  (num_lt x (Fin lo) || num_gt x (Fin hi) = false <-> finite_within lo hi x).
Proof.
  unfold finite_within. destruct x as [| | |q]; simpl; intro Hn;
    try discriminate.
  - split; [discriminate | intros [q [E _]]; discriminate].
  - split; [discriminate | intros [q [E _]]; discriminate].
  - rewrite orb_false_iff, !Qltb_false. split.
    + intros [H1 H2]. exists q. split; [reflexivity | split; assumption].
    + intros [q' [E [H1 H2]]]. inversion E; subst. split; assumption.
Qed.

Lemma finite_within_number (lo hi : Q) (x : number) :
  finite_within lo hi x -> isNaN x = false.
Proof. intros [q [E _]]. subst. reflexivity. Qed.

Lemma effect_condition (a b : number) :
  negb (isNaN a) && negb (isNaN b) &&
  num_ge a (Fin (-90)) && num_le a (Fin 90) &&
  num_ge b (Fin (-180)) && num_le b (Fin 180) = true <->
  finite_within (-90) 90 a /\ finite_within (-180) 180 b.
Proof.
  rewrite <- !within_spec, !andb_true_iff. tauto.
Qed.

Lemma keepCenter_idempotent (a b : number) (prev : option LatLng) :
  isNaN a = false -> isNaN b = false ->
  keepCenter a b (keepCenter a b prev) = keepCenter a b prev.
Proof.
  intros Ha Hb.
  assert (Hnew : keepCenter a b (Some (a, b)) = Some (a, b)).
  { unfold keepCenter. rewrite (num_eq_refl a Ha), (num_eq_refl b Hb).
    reflexivity. }
  destruct prev as [[x y]|]; [|exact Hnew].
  destruct (num_eq x a && num_eq y b) eqn:E.
  - unfold keepCenter. rewrite E, E. reflexivity.
  - unfold keepCenter in *. rewrite E. exact Hnew.
Qed.

(** X3.  The effect on the coordinate fields places the marker exactly when
    the latitude text parses to a finite number of [-90, 90] and the
    longitude text to one of [-180, 180]; the marker is then at the parsed
    pair and a map center is set.  Otherwise the marker is removed, while
    the map center stays what it was. *)
Theorem coordinateEffect_marker (s : State Bounds) :
  (finite_within (-90) 90 (parseFloat (latitude s)) /\
   finite_within (-180) 180 (parseFloat (longitude s)) ->
   markerPosition (coordinateEffect s) =
     Some (parseFloat (latitude s), parseFloat (longitude s)) /\
   mapCenter (coordinateEffect s) <> None) /\
  (~ (finite_within (-90) 90 (parseFloat (latitude s)) /\
      finite_within (-180) 180 (parseFloat (longitude s))) ->
   markerPosition (coordinateEffect s) = None /\
   mapCenter (coordinateEffect s) = mapCenter s).
Proof.
  unfold coordinateEffect. cbv zeta.
  set (a := parseFloat (latitude s)). set (b := parseFloat (longitude s)).
  pose proof (effect_condition a b) as Hc.
  destruct (negb (isNaN a) && negb (isNaN b) && num_ge a (Fin (-90)) &&
            num_le a (Fin 90) && num_ge b (Fin (-180)) && num_le b (Fin 180)).
  - split.
    + intros _. split; [reflexivity|]. cbn.
      unfold keepCenter. destruct (mapCenter s) as [[x y]|];
        [destruct (num_eq x a && num_eq y b)|]; discriminate.
    + intro H. exfalso. apply H, Hc. reflexivity.
  - split.
    + intro H. apply Hc in H. discriminate.
    + intros _. split; reflexivity.
Qed.

(** X4.  Running the effect a second time changes nothing, and the effect
    touches no cell besides the marker and the map center. *)
Theorem coordinateEffect_idempotent (s : State Bounds) :
  coordinateEffect (coordinateEffect s) = coordinateEffect s /\
  latitude (coordinateEffect s) = latitude s /\
  longitude (coordinateEffect s) = longitude s /\
  same_outside_position s (coordinateEffect s).
Proof.
  assert (Hframe : latitude (coordinateEffect s) = latitude s /\
                   longitude (coordinateEffect s) = longitude s /\
                   same_outside_position s (coordinateEffect s)).
  { unfold coordinateEffect, same_outside_position. cbv zeta.
    match goal with |- context [if ?c then _ else _] => destruct c end;
      repeat split. }
  split; [|exact Hframe].
  destruct Hframe as [Hlat [Hlon _]].
  unfold coordinateEffect at 1. cbv zeta. rewrite Hlat, Hlon.
  unfold coordinateEffect. cbv zeta.
  set (a := parseFloat (latitude s)). set (b := parseFloat (longitude s)).
  pose proof (effect_condition a b) as Hc.
  destruct (negb (isNaN a) && negb (isNaN b) && num_ge a (Fin (-90)) &&
            num_le a (Fin 90) && num_ge b (Fin (-180)) && num_le b (Fin 180)).
  - destruct (proj1 Hc eq_refl) as [Ha Hb].
    apply finite_within_number in Ha. apply finite_within_number in Hb.
    destruct s. cbn. rewrite (keepCenter_idempotent a b _ Ha Hb). reflexivity.
  - destruct s. reflexivity.
Qed.

(** ** Submitting *)

Lemma validate_latitude_absent (t : string) :
  validate_latitude t = Absent <-> finite_within (-90) 90 (parseFloat t).
Proof.
  unfold validate_latitude. cbv zeta.
  destruct (isNaN (parseFloat t)) eqn:En.
  - cbn [orb]. split; [discriminate|].
    intro H. apply finite_within_number in H. congruence.
  - rewrite (parsed_nonempty t En). cbn [orb negb].
    pose proof (outside_spec (-90) 90 _ En) as Ho.
    destruct (num_lt (parseFloat t) (Fin (-90)) || num_gt (parseFloat t) (Fin 90)).
    + split; [discriminate|]. intro H. apply Ho in H. discriminate.
    + split; [intros _; apply Ho; reflexivity | reflexivity].
Qed.

Lemma validate_longitude_absent (t : string) :
  validate_longitude t = Absent <-> finite_within (-180) 180 (parseFloat t).
Proof.
  unfold validate_longitude. cbv zeta.
  destruct (isNaN (parseFloat t)) eqn:En.
  - cbn [orb]. split; [discriminate|].
    intro H. apply finite_within_number in H. congruence.
  - rewrite (parsed_nonempty t En). cbn [orb negb].
    pose proof (outside_spec (-180) 180 _ En) as Ho.
    destruct (num_lt (parseFloat t) (Fin (-180)) || num_gt (parseFloat t) (Fin 180)).
    + split; [discriminate|]. intro H. apply Ho in H. discriminate.
    + split; [intros _; apply Ho; reflexivity | reflexivity].
Qed.

Lemma validate_date1_absent (t : string) :
  validate_date1 t = Absent <-> t <> ""%string.
Proof.
  unfold validate_date1. rewrite <- truthy_nonempty.
  destruct (truthy t); simpl; split; try discriminate; reflexivity.
Qed.

Lemma validate_date2_absent (t : string) :
  validate_date2 t = Absent <-> t <> ""%string.
Proof.
  unfold validate_date2. rewrite <- truthy_nonempty.
  destruct (truthy t); simpl; split; try discriminate; reflexivity.
Qed.

Lemma validate_no_errors (s : State Bounds) :
  validate s = no_errors <->
  finite_within (-90) 90 (parseFloat (latitude s)) /\
  finite_within (-180) 180 (parseFloat (longitude s)) /\
  date1 s <> ""%string /\ date2 s <> ""%string.
Proof.
  rewrite <- validate_latitude_absent, <- validate_longitude_absent,
    <- validate_date1_absent, <- validate_date2_absent.
  unfold validate, no_errors. split.
  - intro H. inversion H. repeat split; reflexivity.
  - intros [H1 [H2 [H3 H4]]]. rewrite H1, H2, H3, H4. reflexivity.
Qed.

(** X5.  A submit sends a request exactly when the latitude text parses to
    a finite number of [-90, 90], the longitude text to one of
    [-180, 180], and both dates are not empty; the order of the two dates
    plays no part.  The request then carries the four texts, the cloud
    cover and the two parsed numbers. *)
Theorem handleSubmit_sends_iff (s : State Bounds) :
  (snd (handleSubmit_begin s) <> None <->
   finite_within (-90) 90 (parseFloat (latitude s)) /\
   finite_within (-180) 180 (parseFloat (longitude s)) /\
   date1 s <> ""%string /\ date2 s <> ""%string) /\
  (forall req, snd (handleSubmit_begin s) = Some req ->
     req = mkPending (make_apiUrl s) (parseFloat (latitude s))
                     (parseFloat (longitude s))).
Proof.
  split.
  - rewrite <- validate_no_errors. split.
    + intro H. destruct (handleSubmit_begin s) as [s1 [req|]] eqn:E;
        [|exfalso; apply H; reflexivity].
      exact (proj1 (handleSubmit_begin_valid _ _ _ E)).
    + intro H. unfold handleSubmit_begin. cbv zeta. rewrite H. discriminate.
  - intros req H. destruct (handleSubmit_begin s) as [s1 o] eqn:E.
    simpl in H. subst o.
    exact (proj2 (proj2 (handleSubmit_begin_valid _ _ _ E))).
Qed.

(** X6.  The first half of a submit, up to [fetch], stores the outcome of
    the validation in [errors], hides the list of results and leaves the
    four text fields, the cloud cover, the selection, the stored results
    and the calculating flag as they were.  The second half, run in
    whatever state [t] the session has when the request ends, changes none
    of these, nor [errors], nor the flag that shows the results: the list
    is hidden after a submit only if nothing has shown it again while the
    request was in flight. *)
Theorem handleSubmit_frame (s : State Bounds) :
  (let s1 := fst (handleSubmit_begin s) in
   latitude s1 = latitude s /\ longitude s1 = longitude s /\
   date1 s1 = date1 s /\ date2 s1 = date2 s /\ cloudCover s1 = cloudCover s /\
   selectedComputations s1 = selectedComputations s /\
   computationResults s1 = computationResults s /\
   isCalculating s1 = isCalculating s /\
   errors s1 = validate s /\
   showCalculationResults s1 = false /\ resultsShown s1 = false) /\
  (forall (req : Pending) (r : FetchOutcome Bounds) (t t' : State Bounds),
     handleSubmit_resume req r t = Some t' ->
     latitude t' = latitude t /\ longitude t' = longitude t /\
     date1 t' = date1 t /\ date2 t' = date2 t /\ cloudCover t' = cloudCover t /\
     selectedComputations t' = selectedComputations t /\
     computationResults t' = computationResults t /\
     isCalculating t' = isCalculating t /\
     errors t' = errors t /\
     showCalculationResults t' = showCalculationResults t /\
     resultsShown t' = resultsShown t).
Proof.
  split.
  - cbv zeta. unfold handleSubmit_begin, resultsShown. cbv zeta.
    destruct (0 <? Object_keys_length (validate s))%nat; repeat split.
  - intros req r t t' H.
    unfold handleSubmit_resume, handleSubmit_try, handleSubmit_success in H.
    destruct r as [m | st txt | m | i1 i2].
    + inversion H; subst. repeat split.
    + inversion H; subst. repeat split.
    + inversion H; subst. repeat split.
    + destruct (reconcile_data _ (image1Info t)); [|discriminate].
      destruct (reconcile_data _ (image2Info t)); [|discriminate].
      inversion H; subst. repeat split.
Qed.

(** X19.  After a reset nothing of the search is rendered: the Reset button
    and the computation panel are gone, no results are listed, the
    calculate button is disabled and the submit button is enabled; the map
    updater gets no bounds and the center it had; a second reset changes
    nothing. *)
Theorem handleClearAndReset_page (s : State Bounds) :
  let s' := handleClearAndReset s in
  imagesShown s' = false /\ resultsShown s' = false /\
  calculateDisabled s' = true /\ submitDisabled s' = false /\
  mapUpdaterBounds s' = None /\ mapUpdaterCenter s' = mapUpdaterCenter s /\
  handleClearAndReset s' = s'.
Proof.
  destruct s. vm_compute. repeat split.
Qed.

End HandlerProperties.

(** * Further properties of the selection *)

Section SelectionProperties.

Context {Bounds : Type}.

Lemma filter_all {A : Type} (p : A -> bool) (l : list A) :
  (forall x, In x l -> p x = true) -> filter p l = l.
Proof.
  induction l as [|a l IH]; intro H; simpl; [reflexivity|].
  rewrite (H a (or_introl eq_refl)), IH; [reflexivity|].
  intros x Hx. apply H. right. exact Hx.
Qed.

Lemma filter_none {A : Type} (p : A -> bool) (l : list A) :
  (forall x, In x l -> p x = false) -> filter p l = [].
Proof.
  induction l as [|a l IH]; intro H; simpl; [reflexivity|].
  rewrite (H a (or_introl eq_refl)). apply IH.
  intros x Hx. apply H. right. exact Hx.
Qed.

Lemma eqb_other (x value : string) : x <> value -> negb (String.eqb x value) = true.
Proof. intro H. apply negb_true_iff, String.eqb_neq. exact H. Qed.

Lemma dedup_from_NoDup (seen arr : list string) : NoDup (dedup_from seen arr).
Proof.
  revert seen. induction arr as [|a l IH]; intro seen; simpl; [constructor|].
  destruct (array_includes seen a); [apply IH|].
  constructor; [|apply IH].
  intro H. apply dedup_from_In in H. destruct H as [_ H]. apply H. left. reflexivity.
Qed.

Lemma dedup_from_fixed (seen arr : list string) :
  NoDup arr -> (forall x, In x arr -> ~ In x seen) -> dedup_from seen arr = arr.
Proof.
  intro Hn. revert seen.
  induction Hn as [|a l Ha Hl IH]; intros seen Hs; simpl; [reflexivity|].
  destruct (array_includes seen a) eqn:E.
  - apply array_includes_In in E. exfalso. exact (Hs a (or_introl eq_refl) E).
  - rewrite IH; [reflexivity|].
    intros x Hx [H | H]; [subst; contradiction|].
    exact (Hs x (or_intror Hx) H).
Qed.

Lemma dedup_from_app_filter (items seen l : list string) :
  filter (fun comp => negb (array_includes items comp))
         (dedup_from seen (l ++ items)) =
  filter (fun comp => negb (array_includes items comp)) (dedup_from seen l).
Proof.
  revert seen. induction l as [|a l IH]; intro seen.
  - simpl. apply filter_none. intros x Hx.
    apply dedup_from_In in Hx. destruct Hx as [Hx _].
    apply negb_false_iff, array_includes_In. exact Hx.
  - simpl. destruct (array_includes seen a); [apply IH|].
    simpl. rewrite IH. reflexivity.
Qed.

(** X7.  Checking an item appends it to the selection and unchecking it
    removes every occurrence of it and nothing else; checking an item that
    was not selected and unchecking it again gives the selection back, in
    the same order. *)
Theorem handleComputationChange_round_trip (value : string) (s : State Bounds) :
  (forall x, In x (selectedComputations (handleComputationChange value true s)) <->
             In x (selectedComputations s) \/ x = value) /\
  (forall x, In x (selectedComputations (handleComputationChange value false s)) <->
             In x (selectedComputations s) /\ x <> value) /\
  (~ In value (selectedComputations s) ->
   selectedComputations
     (handleComputationChange value false (handleComputationChange value true s)) =
   selectedComputations s) /\
  (NoDup (selectedComputations s) -> ~ In value (selectedComputations s) ->
   NoDup (selectedComputations (handleComputationChange value true s))) /\
  (NoDup (selectedComputations s) ->
   NoDup (selectedComputations (handleComputationChange value false s))).
Proof.
  split; [|split; [|split; [|split]]].
  - intro x. cbn. rewrite in_app_iff. simpl. intuition congruence.
  - intro x. cbn. rewrite filter_In, negb_true_iff, String.eqb_neq. tauto.
  - intro Hn. cbn. rewrite filter_app. simpl. rewrite String.eqb_refl. simpl.
    rewrite app_nil_r. apply filter_all.
    intros x Hx. apply eqb_other. intro E. subst. contradiction.
  - intros Hd Hn. cbn. apply NoDup_app; [exact Hd | |].
    + constructor; [intros [] | constructor].
    + intros a Ha [E | []]. subst. contradiction.
  - intro Hd. cbn. apply NoDup_filter. exact Hd.
Qed.


Lemma category_checked_selection (category : string) (s : State Bounds) :
  selectedComputations (handleCategoryCheckboxChange category true s) =
  dedup (selectedComputations s ++ lookup_category computationCategories category).
Proof. reflexivity. Qed.

Lemma category_unchecked_selection (category : string) (s : State Bounds) :
  selectedComputations (handleCategoryCheckboxChange category false s) =
  filter (fun comp =>
            negb (array_includes (lookup_category computationCategories category) comp))
         (selectedComputations s).
Proof. reflexivity. Qed.

Lemma category_change_selection (category : string)
    (s : State Bounds) :
  let items := lookup_category computationCategories category in
  let checked := handleCategoryCheckboxChange category true s in
  let unchecked := handleCategoryCheckboxChange category false s in
  NoDup (selectedComputations checked) /\
  (forall x, In x (selectedComputations checked) <->
             In x (selectedComputations s) \/ In x items) /\
  (forall x, In x (selectedComputations unchecked) <->
             In x (selectedComputations s) /\ ~ In x items) /\
  (NoDup (selectedComputations s) -> NoDup (selectedComputations unchecked)) /\
  (NoDup (selectedComputations s) ->
   selectedComputations (handleCategoryCheckboxChange category false checked) =
   selectedComputations unchecked).
Proof.
  cbv zeta. rewrite !category_unchecked_selection, !category_checked_selection.
  split; [|split; [|split; [|split]]].
  - apply dedup_from_NoDup.
  - intro x. unfold dedup. rewrite dedup_from_In, in_app_iff. simpl. tauto.
  - intro x. rewrite filter_In, negb_true_iff.
    rewrite <- (array_includes_In (lookup_category computationCategories category) x).
    rewrite not_true_iff_false. tauto.
  - intro Hd. apply NoDup_filter. exact Hd.
  - intro Hd. unfold dedup. rewrite dedup_from_app_filter.
    rewrite (dedup_from_fixed [] _ Hd); [reflexivity|]. intros x _ [].
Qed.

(** X8.  Checking a category leaves a selection without repetitions that
    holds exactly the items selected before and the items of the category;
    unchecking it leaves exactly the items selected before that are not in
    the category, in their order.  Checking a category and unchecking it
    again removes the whole category from a selection without repetitions
    and changes nothing else. *)
Theorem handleCategoryCheckboxChange_selection (category : string)
    (s : State Bounds) :
  let items := lookup_category computationCategories category in
  let checked := handleCategoryCheckboxChange category true s in
  let unchecked := handleCategoryCheckboxChange category false s in
  NoDup (selectedComputations checked) /\
  (forall x, In x (selectedComputations checked) <->
             In x (selectedComputations s) \/ In x items) /\
  (forall x, In x (selectedComputations unchecked) <->
             In x (selectedComputations s) /\ ~ In x items) /\
  (NoDup (selectedComputations s) -> NoDup (selectedComputations unchecked)) /\
  (NoDup (selectedComputations s) ->
   selectedComputations (handleCategoryCheckboxChange category false checked) =
   selectedComputations unchecked).
Proof. exact (category_change_selection category s). Qed.

Lemma catalog_disjoint (c1 c2 : string) (i1 i2 : list string) :
  In (c1, i1) computationCategories -> In (c2, i2) computationCategories ->
  c1 <> c2 -> forall x, In x i2 -> array_includes i1 x = false.
Proof.
  unfold computationCategories.
  intros [H1 | [H1 | [H1 | [H1 | []]]]] [H2 | [H2 | [H2 | [H2 | []]]]] Hne x Hx;
    inversion H1; inversion H2; subst; try (exfalso; apply Hne; reflexivity);
    simpl in Hx; repeat (destruct Hx as [Hx | Hx]; [subst x; reflexivity|]);
    destruct Hx.
Qed.

(** X9.  The checkboxes of two different categories of the catalog do not
    interfere: checking or unchecking one category leaves the checked state
    of the other as it was. *)
Theorem category_checkboxes_independent (c1 c2 : string) (i1 i2 : list string)
    (checked : bool) (s : State Bounds) :
  In (c1, i1) computationCategories -> In (c2, i2) computationCategories ->
  c1 <> c2 ->
  categoryChecked i2 (handleCategoryCheckboxChange c1 checked s) =
  categoryChecked i2 s.
Proof.
  intros H1 H2 Hne.
  pose proof (catalog_disjoint _ _ _ _ H1 H2 Hne) as Hd.
  pose proof (category_change_selection c1 s) as Hsel.
  cbv zeta in Hsel. rewrite (lookup_catalog _ _ H1) in Hsel.
  destruct Hsel as [_ [Hin [Hout _]]].
  assert (Hnot : forall x, In x i2 -> ~ In x i1).
  { intros x Hx Hi. apply array_includes_In in Hi. rewrite (Hd x Hx) in Hi.
    discriminate. }
  destruct (categoryChecked i2 s) eqn:E.
  - rewrite categoryChecked_spec in E. apply categoryChecked_spec.
    intros comp Hc. destruct checked.
    + apply Hin. left. exact (E comp Hc).
    + apply Hout. split; [exact (E comp Hc) | exact (Hnot comp Hc)].
  - destruct (categoryChecked i2 (handleCategoryCheckboxChange c1 checked s))
      eqn:E'; [|reflexivity].
    rewrite categoryChecked_spec in E'.
    assert (Hall : categoryChecked i2 s = true).
    { apply categoryChecked_spec. intros comp Hc. specialize (E' comp Hc).
      destruct checked.
      - apply Hin in E'. destruct E' as [E' | E']; [exact E'|].
        exfalso. exact (Hnot comp Hc E').
      - apply Hout in E'. exact (proj1 E'). }
    congruence.
Qed.

(** X10.  A change of the selection, by an item or by a category, touches
    the selection alone: the stored results and every other cell stay as
    they are, and the list of results is hidden. *)
Theorem selection_change_frame (name : string) (checked : bool) (s : State Bounds) :
  (let s' := handleComputationChange name checked s in
   same_outside_selection s s' /\ showCalculationResults s' = false /\
   resultsShown s' = false) /\
  (let s' := handleCategoryCheckboxChange name checked s in
   same_outside_selection s s' /\ showCalculationResults s' = false /\
   resultsShown s' = false).
Proof.
  unfold same_outside_selection, resultsShown, handleCategoryCheckboxChange.
  cbv zeta. destruct checked; repeat split.
Qed.

End SelectionProperties.

(** * Further properties of the simulated computation *)

Lemma obj_set_keys (k v : string) (o : JSObject) :
  Object_keys (obj_set k v o) = add_key (Object_keys o) k.
Proof.
  unfold add_key, Object_keys, array_includes.
  induction o as [|[k' v'] o IH]; simpl; [reflexivity|].
  rewrite (String.eqb_sym k k').
  destruct (String.eqb k' k) eqn:E; simpl.
  - apply String.eqb_eq in E. subst. reflexivity.
  - rewrite IH. destruct (existsb (String.eqb k) (map fst o)); reflexivity.
Qed.

Lemma add_key_In (ks : list string) (k x : string) :
  In x (add_key ks k) <-> In x ks \/ x = k.
Proof.
  unfold add_key. destruct (array_includes ks k) eqn:E.
  - apply array_includes_In in E. split; [auto|].
    intros [H | H]; [exact H | subst; exact E].
  - rewrite in_app_iff. simpl. intuition congruence.
Qed.

Lemma add_key_NoDup (ks : list string) (k : string) :
  NoDup ks -> NoDup (add_key ks k).
Proof.
  intro H. unfold add_key. destruct (array_includes ks k) eqn:E; [exact H|].
  apply NoDup_app; [exact H | constructor; [intros [] | constructor] |].
  intros a Ha [Hk | []]. subst.
  apply array_includes_In in Ha. congruence.
Qed.

Lemma add_keys_In (l ks : list string) (x : string) :
  In x (fold_left add_key l ks) <-> In x ks \/ In x l.
Proof.
  revert ks. induction l as [|k l IH]; intro ks; simpl; [tauto|].
  rewrite IH, add_key_In. intuition congruence.
Qed.

Lemma add_keys_NoDup (l ks : list string) :
  NoDup ks -> NoDup (fold_left add_key l ks).
Proof.
  revert ks. induction l as [|k l IH]; intros ks H; simpl; [exact H|].
  apply IH, add_key_NoDup, H.
Qed.

Lemma add_keys_present (l ks : list string) :
  (forall x, In x l -> In x ks) -> fold_left add_key l ks = ks.
Proof.
  revert ks. induction l as [|k l IH]; intros ks H; simpl; [reflexivity|].
  assert (E : add_key ks k = ks).
  { unfold add_key.
    rewrite (proj2 (array_includes_In ks k) (H k (or_introl eq_refl))).
    reflexivity. }
  rewrite E. apply IH. intros x Hx. apply H. right. exact Hx.
Qed.

Lemma add_keys_fresh (l ks : list string) :
  NoDup (ks ++ l) -> fold_left add_key l ks = ks ++ l.
Proof.
  revert ks. induction l as [|k l IH]; intros ks H; simpl.
  - symmetry. apply app_nil_r.
  - assert (E : add_key ks k = ks ++ [k]).
    { unfold add_key. destruct (array_includes ks k) eqn:Ek; [|reflexivity].
      apply array_includes_In in Ek. apply NoDup_remove_2 in H.
      exfalso. apply H, in_or_app. left. exact Ek. }
    rewrite E, IH; rewrite <- app_assoc; [reflexivity | exact H].
Qed.

(** The keys after one pass of the item loop for [comp]: those of the
    object before, and the keys that the item writes. *)
Lemma simulate_item_keys (rand : nat -> Q) (comp : string) (k : nat)
    (results : JSObject) :
  Object_keys (snd (simulate_item rand comp (k, results))) =
  fold_left add_key (item_keys comp) (Object_keys results).
Proof.
  unfold item_keys, simulate_item.
  repeat match goal with
         | |- context [if includes comp ?t then _ else _] =>
             destruct (includes comp t)
         end;
    repeat match goal with
           | |- context [if Qltb (rand k) ?t then _ else _] =>
               destruct (Qltb (rand k) t)
           end;
    cbn [snd]; rewrite ?obj_set_keys; reflexivity.
Qed.

Lemma simulate_pass_keys (rand : nat -> Q) (selected : list string)
    (st : nat * JSObject) :
  Object_keys
    (snd (fold_left (fun st comp => simulate_item rand comp st) selected st)) =
  fold_left add_key (flat_map item_keys selected) (Object_keys (snd st)).
Proof.
  revert st. induction selected as [|comp l IH]; intro st; simpl; [reflexivity|].
  rewrite IH. destruct st as [k results].
  rewrite simulate_item_keys, fold_left_app. reflexivity.
Qed.

Lemma simulate_passes_keys (rand : nat -> Q) (selected passes : list string)
    (st : nat * JSObject) :
  Object_keys
    (snd (fold_left
            (fun st _ =>
               fold_left (fun st comp => simulate_item rand comp st) selected st)
            passes st)) =
  fold_left add_key (flat_map (fun _ => flat_map item_keys selected) passes)
            (Object_keys (snd st)).
Proof.
  revert st. induction passes as [|p l IH]; intro st; simpl; [reflexivity|].
  rewrite IH, simulate_pass_keys, fold_left_app. reflexivity.
Qed.

Lemma simulate_keys (rand : nat -> Q) (selected : list string) :
  Object_keys (simulate rand selected) =
  fold_left add_key (flat_map (fun _ => flat_map item_keys selected) selected) [].
Proof. unfold simulate. apply simulate_passes_keys. Qed.

(** C6.  The button that starts a run is enabled exactly when the selection
    is not empty and no run is in progress.  A click puts the runner in
    [Running], drops the old results and sets a timer whose delay is 1500
    milliseconds whatever the state and the selection, so that its callback
    runs no earlier than 1500 after the click, with the selection captured
    at the click.  The callback puts the runner in [Done] and publishes the
    result set computed from the empty object, the captured selection and
    the random draws alone: it is the same whatever results the session
    held before, and it has a key exactly when some captured item writes
    that key, so that nothing of an earlier run is left in it. *)
Theorem C6_run_computation {Bounds : Type} :
  (forall s : State Bounds,
     clickCalculate s <> None <->
     selectedComputations s <> [] /\ isCalculating s = false) /\
  (forall (s s1 : State Bounds) (timer : Timer),
     clickCalculate s = Some (s1, timer) ->
     runnerStatus s1 = Running /\ computationResults s1 = [] /\
     timer_selected timer = selectedComputations s /\
     timer_delay timer = 1500%Z /\
     (forall now : Z, timer_due now timer = (now + 1500)%Z)) /\
  (forall (rand : nat -> Q) (selected : list string) (s : State Bounds),
     let s2 := handleCalculate_timeout rand selected s in
     runnerStatus s2 = Done /\ isCalculating s2 = false /\
     showCalculationResults s2 = true /\
     computationResults s2 = simulate rand selected) /\
  (forall (rand : nat -> Q) (selected : list string) (s s' : State Bounds),
     computationResults (handleCalculate_timeout rand selected s) =
     computationResults (handleCalculate_timeout rand selected s')) /\
  (forall (rand : nat -> Q) (selected : list string) (s : State Bounds)
          (key : string),
     In key (Object_keys (computationResults
                            (handleCalculate_timeout rand selected s))) <->
     exists comp, In comp selected /\ In key (item_keys comp)).
Proof.
  split; [|split; [|split; [|split]]].
  - intro s. unfold clickCalculate, calculateDisabled.
    destruct (selectedComputations s) as [|c l] eqn:Es;
      destruct (isCalculating s) eqn:Ec; simpl; split;
      try (intros [H1 H2]); try congruence; intro H;
      try (split; congruence); congruence.
  - intros s s1 timer. unfold clickCalculate.
    destruct (calculateDisabled s); [discriminate|].
    intro H. inversion H; subst. repeat split.
  - intros rand selected s. repeat split.
  - reflexivity.
  - intros rand selected s key.
    change (computationResults (handleCalculate_timeout rand selected s))
      with (simulate rand selected).
    rewrite simulate_keys, add_keys_In, in_flat_map. split.
    + intros [[] | [_ [_ H]]]. apply in_flat_map in H. exact H.
    + intros [comp [Hc Hk]]. right. exists comp. split; [exact Hc|].
      apply in_flat_map. exists comp. split; assumption.
Qed.

(** X11.  Which results a run publishes is decided by the selection alone:
    a key is present exactly when some selected item writes it, no key
    occurs twice, the keys and their order do not depend on the random
    draws, and an empty selection publishes nothing. *)
Theorem simulate_result_keys (rand : nat -> Q) (selected : list string) :
  (forall key, In key (Object_keys (simulate rand selected)) <->
               exists comp, In comp selected /\ In key (item_keys comp)) /\
  NoDup (Object_keys (simulate rand selected)) /\
  (forall rand' : nat -> Q,
     Object_keys (simulate rand' selected) = Object_keys (simulate rand selected)) /\
  (selected = [] -> simulate rand selected = []).
Proof.
  split; [|split; [|split]].
  - intro key. rewrite simulate_keys, add_keys_In, in_flat_map. split.
    + intros [[] | [_ [_ H]]]. apply in_flat_map in H. exact H.
    + intros [comp [Hc Hk]]. right. exists comp. split; [exact Hc|].
      apply in_flat_map. exists comp. split; assumption.
  - rewrite simulate_keys. apply add_keys_NoDup. constructor.
  - intro rand'. rewrite !simulate_keys. reflexivity.
  - intro E. subst. reflexivity.
Qed.

Lemma NoDup_app_disjoint {A : Type} (l1 l2 : list A) (x : A) :
  NoDup (l1 ++ l2) -> In x l1 -> In x l2 -> False.
Proof.
  induction l1 as [|a l1 IH]; simpl; intros Hn H1 H2; [exact H1|].
  inversion Hn as [|? ? Ha Hl]; subst.
  destruct H1 as [E | H1]; [|exact (IH Hl H1 H2)].
  subst. apply Ha, in_or_app. right. exact H2.
Qed.

Lemma flat_map_owner {A B : Type} (f : A -> list B) (l : list A) (a b : A) (y : B) :
  NoDup (flat_map f l) -> In a l -> In b l -> In y (f a) -> In y (f b) -> a = b.
Proof.
  induction l as [|c l IH]; simpl; intros Hn Ha Hb Hya Hyb; [destruct Ha|].
  assert (Hrest : forall z, In z l -> In y (f z) -> In y (flat_map f l)).
  { intros z Hz Hy. apply in_flat_map. exists z. split; assumption. }
  destruct Ha as [Ha | Ha]; destruct Hb as [Hb | Hb]; subst.
  - reflexivity.
  - exfalso. exact (NoDup_app_disjoint _ _ y Hn Hya (Hrest b Hb Hyb)).
  - exfalso. exact (NoDup_app_disjoint _ _ y Hn Hyb (Hrest a Ha Hya)).
  - exact (IH (NoDup_app_remove_l _ _ Hn) Ha Hb Hya Hyb).
Qed.

Lemma flat_map_NoDup_incl {A B : Type} (f : A -> list B) (l sel : list A) :
  NoDup (flat_map f l) -> NoDup sel -> incl sel l -> NoDup (flat_map f sel).
Proof.
  intros Hn Hs. induction Hs as [|a sel Ha Hs IH]; intro Hi; simpl; [constructor|].
  assert (Hal : In a l) by (apply Hi; left; reflexivity).
  assert (Hsub : incl sel l) by (intros x Hx; apply Hi; right; exact Hx).
  apply NoDup_app; [| exact (IH Hsub) |].
  - destruct (in_split _ _ Hal) as [l1 [l2 E]]. subst l.
    rewrite flat_map_app in Hn. simpl in Hn.
    apply NoDup_app_remove_l in Hn. apply NoDup_app_remove_r in Hn. exact Hn.
  - intros y Hy Hy'. apply in_flat_map in Hy'. destruct Hy' as [b [Hb Hyb]].
    assert (E : a = b) by exact (flat_map_owner f l a b y Hn Hal (Hsub b Hb) Hy Hyb).
    subst. contradiction.
Qed.

Lemma catalog_keys :
  flat_map item_keys catalogItems =
  [ "dNBR"; "NDFI"; "buildingDamage"; "landslideSusceptibility";
    "NDVI"; "EVI"; "NDMI"; "ChlorophyllIndex";
    "NDWI_Surface"; "MNDWI"; "Turbidity";
    "NDBI"; "imperviousChange"; "urbanHeatIsland"; "greenSpaceChange" ]%string.
Proof. vm_compute. reflexivity. Qed.

Lemma catalog_keys_NoDup : NoDup (flat_map item_keys catalogItems).
Proof.
  rewrite catalog_keys.
  repeat (constructor;
          [simpl; intro H;
           repeat (destruct H as [H | H]; [discriminate H|]); exact H|]).
  constructor.
Qed.

Lemma catalog_item_one_key (comp : string) :
  In comp catalogItems -> List.length (item_keys comp) = 1%nat.
Proof.
  unfold catalogItems, computationCategories. simpl.
  intro H.
  repeat (destruct H as [H | H]; [subst comp; vm_compute; reflexivity|]).
  destruct H.
Qed.

Lemma simulate_catalog_keys (rand : nat -> Q) (selected : list string) :
  NoDup selected -> incl selected catalogItems ->
  Object_keys (simulate rand selected) = flat_map item_keys selected /\
  List.length (simulate rand selected) = List.length selected.
Proof.
  intros Hn Hi.
  assert (Hk : NoDup (flat_map item_keys selected))
    by exact (flat_map_NoDup_incl _ _ _ catalog_keys_NoDup Hn Hi).
  assert (E : Object_keys (simulate rand selected) = flat_map item_keys selected).
  { rewrite simulate_keys. destruct selected as [|c l]; [reflexivity|].
    set (F := flat_map item_keys (c :: l)) in *.
    cbn [flat_map]. rewrite fold_left_app.
    rewrite (add_keys_fresh F [] Hk). cbn [app].
    apply add_keys_present. intros x Hx.
    apply in_flat_map in Hx. destruct Hx as [_ [_ Hx]]. exact Hx. }
  split; [exact E|].
  assert (L : List.length (Object_keys (simulate rand selected)) =
              List.length (simulate rand selected))
    by (unfold Object_keys; apply length_map).
  rewrite <- L, E.
  rewrite (flat_map_constant_length (c := 1%nat)); [lia|].
  intros x Hx. apply catalog_item_one_key, Hi, Hx.
Qed.

(** X12.  Every item of the catalog writes one key of its own.  For a
    selection of distinct catalog items a run therefore publishes as many
    results as there are selected items, one per item in the order of the
    selection, whatever the random draws. *)
Theorem simulate_catalog_selection (rand : nat -> Q) (selected : list string) :
  NoDup selected -> incl selected catalogItems ->
  Object_keys (simulate rand selected) = flat_map item_keys selected /\
  List.length (simulate rand selected) = List.length selected.
Proof. exact (simulate_catalog_keys rand selected). Qed.

(** * Properties of every session that the page can reach *)

Section ReachableProperties.

Context {Bounds : Type} {P : Platform Bounds}.

Lemma center_in_range_none : center_in_range None.
Proof. intros a b H. discriminate. Qed.

Lemma center_in_range_some (a b : number) :
  finite_within (-180) 180 b -> center_in_range (Some (a, b)).
Proof. intros H a' b' E. inversion E; subst. exact H. Qed.

Lemma center_in_range_keep (a b : number) (prev : option LatLng) :
  finite_within (-180) 180 b -> center_in_range prev ->
  center_in_range (keepCenter a b prev).
Proof.
  intros Hb Hp. unfold keepCenter. destruct prev as [[x y]|].
  - destruct (num_eq x a && num_eq y b); [exact Hp|].
    apply center_in_range_some, Hb.
  - apply center_in_range_some, Hb.
Qed.

Lemma keepCenter_some (a b : number) (prev : option LatLng) :
  keepCenter a b prev <> None.
Proof.
  unfold keepCenter. destruct prev as [[x y]|];
    [destruct (num_eq x a && num_eq y b)|]; discriminate.
Qed.

Lemma holds_before_none (n : nat) : holds_before (Bounds := Bounds) n None.
Proof. intros r H. discriminate. Qed.

Lemma imagesShown_held (s : State Bounds) :
  imagesShown s = true -> image1Info s <> None /\ image2Info s <> None.
Proof.
  unfold imagesShown. destruct (image1Info s), (image2Info s);
    intro H; try discriminate; split; discriminate.
Qed.

Lemma catalog_items_incl (category : string) (computations : list string) :
  In (category, computations) computationCategories ->
  incl computations catalogItems.
Proof.
  intros H x Hx. unfold catalogItems. apply in_flat_map.
  exists (category, computations). split; assumption.
Qed.

Lemma invariant_tracked (s s' : State Bounds) (p : option Pending) :
  same_tracked s s' -> Invariant (mkSession s p) -> Invariant (mkSession s' p).
Proof.
  intros [E1 [E2 [E3 [E4 [E5 [E6 E7]]]]]] [].
  constructor; cbn [cells inflight] in *;
    rewrite ?E1, ?E2, ?E3, ?E4, ?E5, ?E6, ?E7; assumption.
Qed.

Ltac none_differs :=
  let H := fresh in intro H; exfalso; apply H; reflexivity.

Ltac invariant_easy :=
  first [ assumption
        | discriminate
        | none_differs
        | apply holds_before_none
        | apply center_in_range_none
        | split; [discriminate | none_differs]
        | intros _; split; reflexivity
        | apply NoDup_nil
        | apply incl_nil_l ].

Lemma invariant_initial : Invariant (mkSession (Bounds := Bounds) initialState None).
Proof.
  constructor; cbn; invariant_easy.
Qed.

Lemma edit_tracked (value : string) (s : State Bounds) :
  same_tracked s (handleLatitudeChange value s) /\
  same_tracked s (handleLongitudeChange value s) /\
  same_tracked s (handleDate1Change value s) /\
  same_tracked s (handleDate2Change value s).
Proof.
  unfold handleLatitudeChange, handleLongitudeChange, handleDate1Change,
    handleDate2Change, same_tracked.
  repeat split;
    match goal with
    | |- context [err_truthy ?e] => destruct (err_truthy e)
    end; reflexivity.
Qed.

Lemma invariant_effect (s : State Bounds) (p : option Pending) :
  Invariant (mkSession s p) -> Invariant (mkSession (coordinateEffect s) p).
Proof.
  intros []. cbn [cells inflight] in *.
  unfold coordinateEffect. cbv zeta.
  set (a := parseFloat (latitude s)). set (b := parseFloat (longitude s)).
  pose proof (effect_condition a b) as Hc.
  destruct (negb (isNaN a) && negb (isNaN b) && num_ge a (Fin (-90)) &&
            num_le a (Fin 90) && num_ge b (Fin (-180)) && num_le b (Fin 180)).
  - destruct (proj1 Hc eq_refl) as [_ Hb].
    constructor; cbn [cells inflight]; cbn; try assumption.
    + intros _. apply keepCenter_some.
    + intros _. apply keepCenter_some.
    + apply center_in_range_some, Hb.
    + apply center_in_range_keep; assumption.
  - constructor; cbn [cells inflight]; cbn; try assumption.
    apply center_in_range_none.
Qed.

Lemma invariant_click (clickedLat clickedLon : Q) (s : State Bounds)
    (p : option Pending) :
  Invariant (mkSession s p) ->
  Invariant (mkSession (mapClick clickedLat clickedLon s) p).
Proof.
  assert (Hl : finite_within (-180) 180 (Fin (normalizeLongitude clickedLon))).
  { exists (normalizeLongitude clickedLon).
    split; [reflexivity | apply normalizeLongitude_bounds]. }
  intros []. cbn [cells inflight] in *.
  constructor; cbn [cells inflight]; cbn; try assumption.
  - intros _. discriminate.
  - intros _. discriminate.
  - apply center_in_range_some, Hl.
  - apply center_in_range_some, Hl.
Qed.

Lemma invariant_submit_invalid (s s' : State Bounds) (p : option Pending) :
  handleSubmit_begin s = (s', None) ->
  Invariant (mkSession s p) -> Invariant (mkSession s' p).
Proof.
  unfold handleSubmit_begin. cbv zeta.
  destruct (0 <? Object_keys_length (validate s))%nat; [|discriminate].
  intro E. inversion E; subst. clear E.
  intros []. cbn [cells inflight] in *.
  constructor; cbn [cells inflight]; cbn; invariant_easy.
Qed.

Lemma invariant_submit_valid (s s' : State Bounds) (p : option Pending)
    (req : Pending) :
  handleSubmit_begin s = (s', Some req) ->
  Invariant (mkSession s p) -> Invariant (mkSession s' (Some req)).
Proof.
  intro E. destruct (handleSubmit_begin_valid _ _ _ E) as [Hv [Es Er]].
  apply validate_no_errors in Hv. destruct Hv as [Hlat [Hlon _]].
  subst s' req.
  intros []. cbn [cells inflight] in *.
  constructor; cbn [cells inflight]; cbn; try invariant_easy.
  - split; [discriminate | reflexivity].
  - intros rq E'. inversion E'; subst. cbn. split; assumption.
Qed.

Lemma invariant_response (r : FetchOutcome Bounds) (s s' : State Bounds)
    (req : Pending) :
  handleSubmit_resume req r s = Some s' ->
  Invariant (mkSession s (Some req)) -> Invariant (mkSession s' None).
Proof.
  intros Hr []. cbn [cells inflight] in *.
  destruct (inv_cleared0 ltac:(discriminate)) as [H1 H2].
  destruct (inv_request0 req eq_refl) as [_ Hlon].
  assert (Hfail : forall message,
            Invariant (mkSession
                         (handleSubmit_finally (handleSubmit_catch message s)) None)).
  { intro message.
    constructor; cbn [cells inflight]; cbn; rewrite ?H1, ?H2; invariant_easy. }
  destruct r as [m | st txt | m | i1 i2];
    try (inversion Hr; subst; apply Hfail).
  rewrite (resume_success_cleared req i1 i2 s H1 H2) in Hr.
  inversion Hr; subst. clear Hr.
  constructor; cbn [cells inflight]; cbn; try invariant_easy.
  - intros r E. destruct i1; inversion E; subst. cbn. lia.
  - intros r E. destruct i2; inversion E; subst. cbn. lia.
  - intros a b Ea Eb. destruct i1, i2; inversion Ea; inversion Eb; subst.
    cbn. lia.
  - intros _. apply keepCenter_some.
  - intros _. apply keepCenter_some.
  - apply center_in_range_some, Hlon.
  - apply center_in_range_keep; assumption.
Qed.

Lemma invariant_reset (s : State Bounds) (p : option Pending) :
  imagesShown s = true ->
  Invariant (mkSession s p) -> Invariant (mkSession (handleClearAndReset s) p).
Proof.
  intros Hs []. cbn [cells inflight] in *.
  destruct (imagesShown_held s Hs) as [H1 _].
  assert (Hp : p = None).
  { destruct p as [req|]; [|reflexivity].
    exfalso. apply H1. apply inv_cleared0. discriminate. }
  subst p.
  constructor; cbn [cells inflight]; cbn; invariant_easy.
Qed.

Lemma invariant_item (value : string) (s : State Bounds) (p : option Pending) :
  In value catalogItems ->
  Invariant (mkSession s p) ->
  Invariant
    (mkSession
       (handleComputationChange value
          (negb (array_includes (selectedComputations s) value)) s) p).
Proof.
  intros Hv []. cbn [cells inflight] in *.
  constructor; cbn [cells inflight]; cbn [handleComputationChange];
    try assumption.
  - destruct (array_includes (selectedComputations s) value) eqn:E; cbn.
    + apply NoDup_filter. assumption.
    + apply NoDup_app; [assumption | constructor; [intros [] | constructor] |].
      intros a Ha [Hk | []]. subst. apply array_includes_In in Ha. congruence.
  - destruct (array_includes (selectedComputations s) value); cbn.
    + intros x Hx. apply filter_In in Hx. apply inv_catalog0. tauto.
    + intros x Hx. apply in_app_iff in Hx. destruct Hx as [Hx | [Hx | []]];
        [apply inv_catalog0; exact Hx | subst; exact Hv].
Qed.

Lemma invariant_category (category : string) (computations : list string)
    (checked : bool) (s : State Bounds) (p : option Pending) :
  In (category, computations) computationCategories ->
  Invariant (mkSession s p) ->
  Invariant (mkSession (handleCategoryCheckboxChange category checked s) p).
Proof.
  intros Hc Hinv.
  pose proof (category_change_selection category s) as Hsel.
  cbv zeta in Hsel. rewrite (lookup_catalog _ _ Hc) in Hsel.
  destruct Hsel as [Hnd [Hin [Hout [Hnd' _]]]].
  destruct Hinv. cbn [cells inflight] in *.
  constructor; cbn [cells inflight];
    try (unfold handleCategoryCheckboxChange; destruct checked; assumption).
  - destruct checked; [exact Hnd | exact (Hnd' inv_nodup0)].
  - intros x Hx. destruct checked.
    + apply Hin in Hx. destruct Hx as [Hx | Hx];
        [exact (inv_catalog0 x Hx) | exact (catalog_items_incl _ _ Hc x Hx)].
    + apply Hout in Hx. exact (inv_catalog0 x (proj1 Hx)).
Qed.

Lemma invariant_step (x y : Session Bounds) :
  step x y -> Invariant x -> Invariant y.
Proof.
  intros Hs Hi. destruct Hs.
  - exact (invariant_tracked _ _ _ (proj1 (edit_tracked value s)) Hi).
  - exact (invariant_tracked _ _ _ (proj1 (proj2 (edit_tracked value s))) Hi).
  - exact (invariant_tracked _ _ _
             (proj1 (proj2 (proj2 (edit_tracked value s)))) Hi).
  - exact (invariant_tracked _ _ _
             (proj2 (proj2 (proj2 (edit_tracked value s)))) Hi).
  - exact (invariant_effect _ _ Hi).
  - exact (invariant_click _ _ _ _ Hi).
  - exact (invariant_submit_invalid _ _ _ H0 Hi).
  - exact (invariant_submit_valid _ _ _ _ H0 Hi).
  - exact (invariant_response _ _ _ _ H Hi).
  - exact (invariant_reset _ _ H Hi).
  - apply (invariant_tracked s); [|exact Hi]. repeat split.
  - exact (invariant_item _ _ _ H0 Hi).
  - exact (invariant_category _ _ _ _ _ H0 Hi).
  - unfold clickCalculate in H0. destruct (calculateDisabled s); [discriminate|].
    inversion H0; subst. apply (invariant_tracked s); [|exact Hi]. repeat split.
  - apply (invariant_tracked s); [|exact Hi]. repeat split.
Qed.

Lemma invariant_reachable (x : Session Bounds) : reachable x -> Invariant x.
Proof.
  induction 1 as [|x y Hx IH Hs]; [exact invariant_initial|].
  exact (invariant_step x y Hs IH).
Qed.

(** X13.  In every reachable session the loading flag is set exactly while
    a request is in flight, and while it is set no image is held: the
    submit button is disabled, the Reset button and the computation panel
    are not rendered, and the response is reconciled against no held
    descriptor. *)
Theorem reachable_loading (x : Session Bounds) :
  reachable x ->
  (isLoading (cells x) = true <-> inflight x <> None) /\
  (isLoading (cells x) = true ->
   image1Info (cells x) = None /\ image2Info (cells x) = None /\
   imagesShown (cells x) = false /\ submitDisabled (cells x) = true).
Proof.
  intro Hr. destruct (invariant_reachable x Hr).
  split; [assumption|]. intro Hl.
  destruct (inv_cleared0 (proj1 inv_loading0 Hl)) as [H1 H2].
  unfold imagesShown, submitDisabled. rewrite H1, H2. repeat split. exact Hl.
Qed.

(** X14.  In every reachable session every image descriptor that is held
    was allocated before the next free address, and when both are held
    they are two different objects. *)
Theorem reachable_images_allocated (x : Session Bounds) :
  reachable x ->
  (forall a, image1Info (cells x) = Some a -> (addr a < nextAddr (cells x))%nat) /\
  (forall b, image2Info (cells x) = Some b -> (addr b < nextAddr (cells x))%nat) /\
  (forall a b, image1Info (cells x) = Some a -> image2Info (cells x) = Some b ->
     addr a <> addr b /\ same_ref (Some a) (Some b) = false).
Proof.
  intro Hr. pose proof (invariant_reachable x Hr) as Hi.
  split; [exact (inv_addr1 x Hi)|]. split; [exact (inv_addr2 x Hi)|].
  intros a b Ha Hb. pose proof (inv_distinct x Hi a b Ha Hb) as Hd.
  split; [exact Hd|]. simpl. apply Nat.eqb_neq. exact Hd.
Qed.

(** X15.  No reachable session makes the map updater call [fitBounds]:
    whenever an image is held a map center is set, so with images held the
    commands are [invalidateSize] and [flyTo] that center at zoom 13. *)
Theorem reachable_never_fitBounds (x : Session Bounds) :
  reachable x ->
  (forall c, In c (viewportCommands (cells x)) -> is_FitBounds c = false) /\
  (imagesShown (cells x) = true ->
   exists center, mapCenter (cells x) = Some center /\
     viewportCommands (cells x) = [InvalidateSize; FlyTo center 13%Z]).
Proof.
  intro Hr. pose proof (invariant_reachable x Hr) as Hi.
  pose proof (inv_center x Hi) as inv_center0.
  pose proof (inv_center2 x Hi) as inv_center3.
  assert (Hb : mapCenter (cells x) = None -> mapUpdaterBounds (cells x) = None).
  { intro Hc. unfold mapUpdaterBounds, bounds_of.
    destruct (image1Info (cells x)) as [r|] eqn:E1.
    - exfalso. apply inv_center0; [discriminate | exact Hc].
    - destruct (image2Info (cells x)) as [r|] eqn:E2; [|reflexivity].
      exfalso. apply inv_center3; [discriminate | exact Hc]. }
  split.
  - unfold viewportCommands, mapUpdaterCenter, MapUpdater.
    destruct (mapCenter (cells x)) as [c|].
    + intros c' [E | [E | []]]; subst; reflexivity.
    + rewrite (Hb eq_refl). intros c' [E | []]. subst. reflexivity.
  - intro Hs. destruct (imagesShown_held _ Hs) as [H1 _].
    specialize (inv_center0 H1).
    unfold viewportCommands, mapUpdaterCenter, MapUpdater.
    destruct (mapCenter (cells x)) as [c|]; [|exfalso; apply inv_center0; reflexivity].
    exists c. split; reflexivity.
Qed.

(** X16.  In every reachable session the selection holds items of the
    catalog only, each at most once, so at most fifteen. *)
Theorem reachable_selection (x : Session Bounds) :
  reachable x ->
  NoDup (selectedComputations (cells x)) /\
  incl (selectedComputations (cells x)) catalogItems /\
  (List.length (selectedComputations (cells x)) <= 15)%nat.
Proof.
  intro Hr. destruct (invariant_reachable x Hr).
  split; [assumption|]. split; [assumption|].
  change 15%nat with (List.length catalogItems).
  apply NoDup_incl_length; assumption.
Qed.

(** X17.  A run started by the button of the computation panel in a
    reachable session sets the timer to 1500 milliseconds.  Whatever state
    [t] the session has when the callback runs, the callback ends in
    [Done] with one result per item that was selected at the click; the
    list of results is then rendered exactly when both images are held in
    [t], and so it is when the callback runs right after the click. *)
Theorem reachable_run_results (x : Session Bounds) (s1 : State Bounds)
    (timer : Timer) (rand : nat -> Q) :
  reachable x ->
  imagesShown (cells x) = true ->
  clickCalculate (cells x) = Some (s1, timer) ->
  timer_delay timer = 1500%Z /\
  (forall t : State Bounds,
     let s2 := handleCalculate_timeout rand (timer_selected timer) t in
     List.length (computationResults s2) =
       List.length (selectedComputations (cells x)) /\
     (0 < List.length (computationResults s2))%nat /\
     runnerStatus s2 = Done /\
     resultsShown s2 = true /\
     resultsRendered s2 = imagesShown t) /\
  resultsRendered (handleCalculate_timeout rand (timer_selected timer) s1) = true.
Proof.
  intros Hr Hs Hc. pose proof (invariant_reachable x Hr) as Hi.
  pose proof (inv_nodup x Hi) as Hn. pose proof (inv_catalog x Hi) as Hcat.
  unfold clickCalculate, calculateDisabled in Hc.
  destruct (selectedComputations (cells x)) as [|c l] eqn:Es; [discriminate|].
  destruct (isCalculating (cells x)); [discriminate|].
  simpl in Hc. inversion Hc; subst s1 timer. clear Hc.
  cbn [timer_delay timer_selected]. rewrite Es.
  destruct (simulate_catalog_keys rand (c :: l) Hn Hcat) as [_ Hlen].
  assert (Hall : forall t : State Bounds,
            let s2 := handleCalculate_timeout rand (c :: l) t in
            List.length (computationResults s2) = List.length (c :: l) /\
            (0 < List.length (computationResults s2))%nat /\
            runnerStatus s2 = Done /\
            resultsShown s2 = true /\
            resultsRendered s2 = imagesShown t).
  { intro t. cbv zeta.
    assert (E : computationResults (handleCalculate_timeout rand (c :: l) t) =
                simulate rand (c :: l)) by reflexivity.
    assert (Hshown : resultsShown (handleCalculate_timeout rand (c :: l) t) = true).
    { unfold resultsShown. rewrite E.
      unfold Object_keys. rewrite length_map, Hlen. reflexivity. }
    rewrite E, Hlen. split; [reflexivity|]. split; [simpl; lia|].
    split; [reflexivity|]. split; [exact Hshown|].
    unfold resultsRendered. rewrite Hshown. apply andb_true_r. }
  split; [reflexivity|]. split; [exact Hall|].
  destruct (Hall (setComputationResults [] (setIsCalculating true (cells x))))
    as [_ [_ [_ [_ Hrend]]]].
  rewrite Hrend. exact Hs.
Qed.

(** X18.  In every reachable session the longitude of the marker and of the
    map center, when there is one, is a finite number of [-180, 180]. *)
Theorem reachable_longitude (x : Session Bounds) :
  reachable x ->
  (forall a b, markerPosition (cells x) = Some (a, b) ->
     finite_within (-180) 180 b) /\
  (forall a b, mapCenter (cells x) = Some (a, b) ->
     finite_within (-180) 180 b).
Proof.
  intro Hr. destruct (invariant_reachable x Hr). split; assumption.
Qed.

End ReachableProperties.

(** * The further properties at concrete sessions *)

Lemma scenario_session_reachable : reachable (P := decimalPlatform) scenario_session.
Proof.
  apply (reachable_step (mkSession scenario_loading (Some scenario_request))).
  - apply (reachable_step (mkSession scenario_mounted None)).
    + apply (reachable_step (mkSession initialState None));
        [apply reachable_initial | apply step_effect].
    + apply step_submit_valid; vm_compute; reflexivity.
  - apply (step_response stub_response). exact scenario_loaded_run.
Qed.

Lemma water_in_catalog :
  In ("Water Resources"%string, water_items) computationCategories.
Proof. right. right. left. reflexivity. Qed.

Lemma scenario_selected_reachable :
  reachable (P := decimalPlatform) scenario_selected.
Proof.
  apply (reachable_step
           (mkSession
              (handleCategoryCheckboxChange "Water Resources"
                 (negb (categoryChecked water_items scenario_loaded))
                 scenario_loaded) None)).
  - apply (reachable_step scenario_session);
      [exact scenario_session_reachable|].
    apply step_category; [vm_compute; reflexivity | exact water_in_catalog].
  - apply step_item; [vm_compute; reflexivity|].
    vm_compute. do 4 right. left. reflexivity.
Qed.

Lemma coordinateEffect_marker_witness :
  (finite_within (-90) 90 (parseFloat (latitude scenario_loaded)) /\
   finite_within (-180) 180 (parseFloat (longitude scenario_loaded))) /\
  markerPosition (coordinateEffect scenario_loaded) =
    Some (parseFloat (latitude scenario_loaded),
          parseFloat (longitude scenario_loaded)).
Proof.
  assert (H : finite_within (-90) 90 (parseFloat (latitude scenario_loaded)) /\
              finite_within (-180) 180 (parseFloat (longitude scenario_loaded))).
  { split.
    - exists (354393 # 10000). split; [vm_compute; reflexivity|].
      split; unfold Qle; simpl; lia.
    - exists (-822465 # 10000). split; [vm_compute; reflexivity|].
      split; unfold Qle; simpl; lia. }
  split; [exact H|].
  exact (proj1 (proj1 (coordinateEffect_marker (P := decimalPlatform)
                         scenario_loaded) H)).
Defined.

Lemma handleSubmit_sends_iff_witness :
  (finite_within (-90) 90 (parseFloat (latitude scenario_mounted)) /\
   finite_within (-180) 180 (parseFloat (longitude scenario_mounted)) /\
   date1 scenario_mounted <> ""%string /\ date2 scenario_mounted <> ""%string) /\
  snd (handleSubmit_begin scenario_mounted) <> None /\
  (err_latitude (validate latitude_95) <> Absent ->
   snd (handleSubmit_begin latitude_95) = None).
Proof.
  assert (H : finite_within (-90) 90 (parseFloat (latitude scenario_mounted)) /\
              finite_within (-180) 180 (parseFloat (longitude scenario_mounted)) /\
              date1 scenario_mounted <> ""%string /\
              date2 scenario_mounted <> ""%string).
  { split; [|split; [|split; discriminate]].
    - exists (354393 # 10000). split; [vm_compute; reflexivity|].
      split; unfold Qle; simpl; lia.
    - exists (-822465 # 10000). split; [vm_compute; reflexivity|].
      split; unfold Qle; simpl; lia. }
  split; [exact H|]. split.
  - exact (proj2 (proj1 (handleSubmit_sends_iff (P := decimalPlatform)
                           scenario_mounted)) H).
  - intros _. vm_compute. reflexivity.
Defined.

Lemma handleComputationChange_round_trip_witness :
  ~ In "EVI (Enhanced Vegetation Index)"%string
       (selectedComputations ndvi_selected) /\
  selectedComputations
    (handleComputationChange "EVI (Enhanced Vegetation Index)" false
       (handleComputationChange "EVI (Enhanced Vegetation Index)" true
          ndvi_selected)) =
  selectedComputations ndvi_selected.
Proof.
  assert (H : ~ In "EVI (Enhanced Vegetation Index)"%string
                   (selectedComputations ndvi_selected)).
  { vm_compute. intros [E | []]. discriminate E. }
  split; [exact H|].
  exact (proj1 (proj2 (proj2 (handleComputationChange_round_trip
                                "EVI (Enhanced Vegetation Index)"
                                ndvi_selected))) H).
Defined.

Lemma handleCategoryCheckboxChange_selection_witness :
  NoDup (selectedComputations ndvi_selected) /\
  selectedComputations
    (handleCategoryCheckboxChange "Water Resources" false
       (handleCategoryCheckboxChange "Water Resources" true ndvi_selected)) =
  selectedComputations ndvi_selected.
Proof.
  assert (H : NoDup (selectedComputations ndvi_selected)).
  { vm_compute. constructor; [intros [] | constructor]. }
  split; [exact H|].
  pose proof (handleCategoryCheckboxChange_selection "Water Resources"
                ndvi_selected) as [_ [_ [_ [_ Hback]]]].
  rewrite (Hback H). vm_compute. reflexivity.
Defined.

Lemma category_checkboxes_independent_witness :
  In ("Water Resources"%string, water_items) computationCategories /\
  In ("Agriculture & Forestry"%string,
      lookup_category computationCategories "Agriculture & Forestry")
     computationCategories /\
  "Water Resources"%string <> "Agriculture & Forestry"%string /\
  categoryChecked (lookup_category computationCategories "Agriculture & Forestry")
    (handleCategoryCheckboxChange "Water Resources" true ndvi_selected) =
  categoryChecked (lookup_category computationCategories "Agriculture & Forestry")
    ndvi_selected.
Proof.
  assert (H2 : In ("Agriculture & Forestry"%string,
                   lookup_category computationCategories "Agriculture & Forestry")
                  computationCategories).
  { right. left. reflexivity. }
  assert (Hne : "Water Resources"%string <> "Agriculture & Forestry"%string)
    by discriminate.
  split; [exact water_in_catalog|]. split; [exact H2|]. split; [exact Hne|].
  exact (category_checkboxes_independent _ _ _ _ true ndvi_selected
           water_in_catalog H2 Hne).
Defined.

Lemma simulate_result_keys_witness :
  (exists comp, In comp water_items /\ In "MNDWI"%string (item_keys comp)) /\
  In "MNDWI"%string (Object_keys (simulate (fun _ => 1 # 3) water_items)).
Proof.
  assert (H : exists comp, In comp water_items /\ In "MNDWI"%string (item_keys comp)).
  { exists "Modified Normalized Difference Water Index (MNDWI)"%string.
    split; [right; left; reflexivity | vm_compute; left; reflexivity]. }
  split; [exact H|].
  exact (proj2 (proj1 (simulate_result_keys (fun _ => 1 # 3) water_items)
                  "MNDWI"%string) H).
Defined.

Lemma water_items_NoDup : NoDup water_items.
Proof.
  vm_compute.
  repeat (constructor;
          [simpl; intro H;
           repeat (destruct H as [H | H]; [discriminate H|]); exact H|]).
  constructor.
Qed.

Lemma simulate_catalog_selection_witness :
  NoDup water_items /\ incl water_items catalogItems /\
  Object_keys (simulate (fun _ => 1 # 3) water_items) =
    ["NDWI_Surface"; "MNDWI"; "Turbidity"]%string /\
  List.length (simulate (fun _ => 1 # 3) water_items) = 3%nat.
Proof.
  assert (Hi : incl water_items catalogItems)
    by exact (catalog_items_incl _ _ water_in_catalog).
  split; [exact water_items_NoDup|]. split; [exact Hi|].
  destruct (simulate_catalog_selection (fun _ => 1 # 3) water_items
              water_items_NoDup Hi) as [Hk Hl].
  split; [rewrite Hk; vm_compute; reflexivity | exact Hl].
Defined.

Lemma reachable_loading_witness :
  reachable (P := decimalPlatform)
    (mkSession scenario_loading (Some scenario_request)) /\
  isLoading scenario_loading = true /\
  imagesShown scenario_loading = false.
Proof.
  assert (Hr : reachable (P := decimalPlatform)
                 (mkSession scenario_loading (Some scenario_request))).
  { apply (reachable_step (mkSession scenario_mounted None)).
    - apply (reachable_step (mkSession initialState None));
        [apply reachable_initial | apply step_effect].
    - apply step_submit_valid; vm_compute; reflexivity. }
  split; [exact Hr|].
  destruct (reachable_loading _ Hr) as [Hl Hc].
  assert (Hload : isLoading scenario_loading = true).
  { apply (proj2 Hl). discriminate. }
  split; [exact Hload|].
  exact (proj1 (proj2 (proj2 (Hc Hload)))).
Defined.

Lemma reachable_images_allocated_witness :
  reachable (P := decimalPlatform) scenario_session /\
  image1Info scenario_loaded = Some (mkRef 0 stub_image1) /\
  image2Info scenario_loaded = Some (mkRef 1 stub_image2) /\
  (0 < nextAddr scenario_loaded)%nat /\
  same_ref (Some (mkRef 0 stub_image1)) (Some (mkRef 1 stub_image2)) = false.
Proof.
  assert (H1 : image1Info scenario_loaded = Some (mkRef 0 stub_image1))
    by (vm_compute; reflexivity).
  assert (H2 : image2Info scenario_loaded = Some (mkRef 1 stub_image2))
    by (vm_compute; reflexivity).
  split; [exact scenario_session_reachable|].
  split; [exact H1|]. split; [exact H2|].
  destruct (reachable_images_allocated _ scenario_session_reachable)
    as [Ha [_ Hd]].
  split; [exact (Ha _ H1) | exact (proj2 (Hd _ _ H1 H2))].
Defined.

Lemma reachable_never_fitBounds_witness :
  reachable (P := decimalPlatform) scenario_session /\
  imagesShown scenario_loaded = true /\
  exists center,
    viewportCommands scenario_loaded = [InvalidateSize; FlyTo center 13%Z].
Proof.
  assert (Hs : imagesShown scenario_loaded = true) by (vm_compute; reflexivity).
  split; [exact scenario_session_reachable|]. split; [exact Hs|].
  destruct (proj2 (reachable_never_fitBounds _ scenario_session_reachable) Hs)
    as [center [_ Hv]].
  exists center. exact Hv.
Defined.

Lemma reachable_selection_witness :
  reachable (P := decimalPlatform) scenario_selected /\
  NoDup (selectedComputations (cells scenario_selected)) /\
  (List.length (selectedComputations (cells scenario_selected)) <= 15)%nat.
Proof.
  split; [exact scenario_selected_reachable|].
  destruct (reachable_selection _ scenario_selected_reachable) as [Hn [_ Hl]].
  split; [exact Hn | exact Hl].
Defined.

Lemma reachable_run_results_witness :
  reachable (P := decimalPlatform) scenario_selected /\
  imagesShown (cells scenario_selected) = true /\
  clickCalculate (cells scenario_selected) =
    Some (fst (handleCalculate (cells scenario_selected)),
          snd (handleCalculate (cells scenario_selected))) /\
  List.length
    (computationResults
       (handleCalculate_timeout (fun _ => 1 # 3)
          (timer_selected (snd (handleCalculate (cells scenario_selected))))
          (fst (handleCalculate (cells scenario_selected))))) = 4%nat /\
  resultsRendered
    (handleCalculate_timeout (fun _ => 1 # 3)
       (timer_selected (snd (handleCalculate (cells scenario_selected))))
       (fst (handleCalculate (cells scenario_selected)))) = true.
Proof.
  assert (Hs : imagesShown (cells scenario_selected) = true)
    by (vm_compute; reflexivity).
  assert (Hc : clickCalculate (cells scenario_selected) =
               Some (fst (handleCalculate (cells scenario_selected)),
                     snd (handleCalculate (cells scenario_selected))))
    by (vm_compute; reflexivity).
  split; [exact scenario_selected_reachable|]. split; [exact Hs|].
  split; [exact Hc|].
  destruct (reachable_run_results _ _ _ (fun _ => 1 # 3)
              scenario_selected_reachable Hs Hc) as [_ [Hall Hrend]].
  destruct (Hall (fst (handleCalculate (cells scenario_selected)))) as [Hl _].
  split; [rewrite Hl; vm_compute; reflexivity | exact Hrend].
Defined.

Lemma reachable_longitude_witness :
  reachable (P := decimalPlatform) scenario_session /\
  markerPosition scenario_loaded =
    Some (Fin (354393 # 10000), Fin (-822465 # 10000)) /\
  finite_within (-180) 180 (Fin (-822465 # 10000)).
Proof.
  assert (Hm : markerPosition scenario_loaded =
               Some (Fin (354393 # 10000), Fin (-822465 # 10000)))
    by (vm_compute; reflexivity).
  split; [exact scenario_session_reachable|]. split; [exact Hm|].
  exact (proj1 (reachable_longitude _ scenario_session_reachable) _ _ Hm).
Defined.

Lemma C6_run_computation_witness :
  clickCalculate ndvi_selected =
    Some (fst (handleCalculate ndvi_selected), snd (handleCalculate ndvi_selected)) /\
  runnerStatus (fst (handleCalculate ndvi_selected)) = Running /\
  computationResults (fst (handleCalculate ndvi_selected)) = [] /\
  timer_selected (snd (handleCalculate ndvi_selected)) =
    selectedComputations ndvi_selected /\
  timer_delay (snd (handleCalculate ndvi_selected)) = 1500%Z /\
  timer_due 1000 (snd (handleCalculate ndvi_selected)) = 2500%Z.
Proof.
  assert (H : clickCalculate ndvi_selected =
              Some (fst (handleCalculate ndvi_selected),
                    snd (handleCalculate ndvi_selected))) by reflexivity.
  split; [exact H|].
  destruct (proj1 (proj2 (C6_run_computation (Bounds := list (list Z)))) _ _ _ H)
    as [Hrun [Hres [Hsel [Hdelay Hdue]]]].
  split; [exact Hrun|]. split; [exact Hres|]. split; [exact Hsel|].
  split; [exact Hdelay | exact (Hdue 1000%Z)].
Defined.

Lemma overlap_loaded_run :
  handleSubmit_resume scenario_request stub_response overlap_loading =
  Some overlap_loaded.
Proof. vm_compute. reflexivity. Qed.

Lemma handleSubmit_frame_witness :
  handleSubmit_resume scenario_request stub_response overlap_loading =
    Some overlap_loaded /\
  showCalculationResults (fst (handleSubmit_begin (fst (handleCalculate ndvi_selected)))) =
    false /\
  showCalculationResults overlap_loading = true /\
  showCalculationResults overlap_loaded = true /\
  resultsRendered overlap_loaded = true.
Proof.
  split; [exact overlap_loaded_run|].
  destruct (handleSubmit_frame (P := decimalPlatform)
              (fst (handleCalculate ndvi_selected))) as [Hfirst Hsecond].
  destruct (Hsecond _ _ _ _ overlap_loaded_run)
    as [_ [_ [_ [_ [_ [_ [_ [_ [_ [Hshow _]]]]]]]]]].
  assert (Hl : showCalculationResults overlap_loading = true)
    by (vm_compute; reflexivity).
  split; [exact (proj1 (proj2 (proj2 (proj2 (proj2 (proj2 (proj2 (proj2
                  (proj2 (proj2 Hfirst))))))))))|].
  split; [exact Hl|]. split; [rewrite Hshow; exact Hl|].
  vm_compute. reflexivity.
Defined.

